(** * Mortgage calculator: the renderer's calculation and comparison logic

    A shallow embedding of [src/renderer.js]: the amortization engine
    ([calculateMortgage]), the input validation ([validateInputs]), the two
    paths that add the lot fees ([handleCalculate], [addToComparison]), the
    comparison list ([comparisonMortgages], [removeFromComparison]) and the
    text of the fields ([formatNumberWithCommas], [handleLoanAmountInput],
    [parseInt]).

    Numbers.  The page is modelled over numbers that are NaN, plus or minus
    Infinity, or a finite value kept as a rational in lowest terms.  The
    special values follow the IEEE rules the source relies on ([isNaN],
    comparisons that are false on NaN, division by zero), and a comparison
    of finite values is exact, as it is on doubles.  The statements made
    over these numbers are about which operations the source applies to
    which values and about what its tests accept: they do not rest on what
    rounding does to a value.

    The values themselves are looked at in binary64:
    [calculateMortgage_binary64] is the engine over IEEE-754 doubles, and it
    is evaluated at a rate so small that [1 + monthlyRate] rounds to 1. *)

From Stdlib Require Import Floats.
From Stdlib Require Import ZArith QArith Qreduction Qpower Qabs.
From Stdlib Require Qcanon.
From Stdlib Require Import Bool List String Lia Lqa.
Import ListNotations.

Local Open Scope Q_scope.

(** ** JavaScript numbers *)

Inductive number : Type :=
| NaN
| Inf (negative : bool)
| Fin (q : Q).

(** An integer literal of the source. *)
Definition num (z : Z) : number := Fin (inject_Z z).

Definition Qltb (a b : Q) : bool := negb (Qle_bool b a).

(** [x + y] *)
Definition num_add (x y : number) : number :=
  match x, y with
  | NaN, _ | _, NaN => NaN
  | Inf s, Inf t => if Bool.eqb s t then Inf s else NaN
  | Inf s, Fin _ => Inf s
  | Fin _, Inf t => Inf t
  | Fin a, Fin b => Fin (Qred (a + b))
  end.

(** [x - y] *)
Definition num_sub (x y : number) : number :=
  match x, y with
  | NaN, _ | _, NaN => NaN
  | Inf s, Inf t => if Bool.eqb s t then NaN else Inf s
  | Inf s, Fin _ => Inf s
  | Fin _, Inf t => Inf (negb t)
  | Fin a, Fin b => Fin (Qred (a - b))
  end.

(** [x * y]: Infinity times zero is NaN. *)
Definition num_mul (x y : number) : number :=
  match x, y with
  | NaN, _ | _, NaN => NaN
  | Inf s, Inf t => Inf (xorb s t)
  | Inf s, Fin b => if Qeq_bool b 0 then NaN else Inf (xorb s (Qltb b 0))
  | Fin a, Inf t => if Qeq_bool a 0 then NaN else Inf (xorb (Qltb a 0) t)
  | Fin a, Fin b => Fin (Qred (a * b))
  end.

(** [x / y]: a finite nonzero value over zero is an Infinity, zero over zero
    and Infinity over Infinity are NaN. *)
Definition num_div (x y : number) : number :=
  match x, y with
  | NaN, _ | _, NaN => NaN
  | Inf _, Inf _ => NaN
  | Inf s, Fin b => Inf (xorb s (Qltb b 0))
  | Fin _, Inf _ => Fin 0
  | Fin a, Fin b =>
      if Qeq_bool b 0
      then (if Qeq_bool a 0 then NaN else Inf (Qltb a 0))
      else Fin (Qred (a / b))
  end.

(** [x < y], false as soon as one side is NaN. *)
Definition num_lt (x y : number) : bool :=
  match x, y with
  | NaN, _ | _, NaN => false
  | Inf s, Inf t => s && negb t
  | Inf s, Fin _ => s
  | Fin _, Inf t => negb t
  | Fin a, Fin b => Qltb a b
  end.

(** [x <= y] *)
Definition num_le (x y : number) : bool :=
  match x, y with
  | NaN, _ | _, NaN => false
  | Inf s, Inf t => s || negb t
  | Inf s, Fin _ => s
  | Fin _, Inf t => negb t
  | Fin a, Fin b => Qle_bool a b
  end.

(** [x > y] *)
Definition num_gt (x y : number) : bool := num_lt y x.

(** [x === y] on numbers: NaN is equal to nothing. *)
Definition num_eq (x y : number) : bool :=
  match x, y with
  | Inf s, Inf t => Bool.eqb s t
  | Fin a, Fin b => Qeq_bool a b
  | _, _ => false
  end.

Declare Scope js_scope.
Delimit Scope js_scope with js.
Bind Scope js_scope with number.
Infix "+" := num_add : js_scope.
Infix "-" := num_sub : js_scope.
Infix "*" := num_mul : js_scope.
Infix "/" := num_div : js_scope.
Infix "<" := num_lt : js_scope.
Infix "<=" := num_le : js_scope.
Infix ">" := num_gt : js_scope.
Notation "x === y" := (num_eq x y) (at level 70, no associativity) : js_scope.

(** The global [isNaN], on a number. *)
Definition isNaN (x : number) : bool :=
  match x with NaN => true | _ => false end.

Definition Qis_integer (q : Q) : bool := Pos.eqb (Qden (Qred q)) 1.

(** [Number.isInteger]: finite, with no fractional part. *)
Definition Number_isInteger (x : number) : bool :=
  match x with Fin q => Qis_integer q | _ => false end.

Definition Qis_odd_integer (q : Q) : bool :=
  Qis_integer q && Z.odd (Qnum (Qred q)).

(** ** Values read back from JSON

    [displayResults] keeps the inputs as [JSON.stringify(inputs)] in
    [dataset.inputs] and [addToComparison] reads them with [JSON.parse].  A
    finite number survives the round trip; NaN and the Infinities are
    written as [null]. *)

Inductive jsval : Type :=
| JNull
| JNum (x : number).

Definition JSON_roundtrip (x : number) : jsval :=
  match x with
  | Fin q => JNum (Fin q)
  | _ => JNull
  end.

(** The coercion of an operand of [*], [/], [+] with a number, [-]:
    [null] counts as zero. *)
Definition ToNumber (v : jsval) : number :=
  match v with
  | JNull => num 0
  | JNum x => x
  end.

(** [v || 0]: [null], NaN and zero are falsy. *)
Definition or_zero (v : jsval) : number :=
  match v with
  | JNull => num 0
  | JNum NaN => num 0
  | JNum (Inf s) => Inf s
  | JNum (Fin q) => if Qeq_bool q 0 then num 0 else Fin q
  end.

(** ** Records of the source *)

(** The object [calculateMortgage] returns, and the [results] object of
    [handleCalculate]. *)
Record result : Type := {
  monthlyPayment : number;
  totalInterest : number;
  totalAmount : number
}.

(** The [inputs] object of [handleCalculate], and what [JSON.parse] gives
    back for it. *)
Module Inputs.
Record t : Type := {
  interestRate : number;
  loanAmount : number;
  loanDuration : number;
  lotFees : number
}.
Record parsed : Type := {
  p_interestRate : jsval;
  p_loanAmount : jsval;
  p_loanDuration : jsval;
  p_lotFees : jsval
}.
Definition roundtrip (i : t) : parsed :=
  {| p_interestRate := JSON_roundtrip (interestRate i);
     p_loanAmount := JSON_roundtrip (loanAmount i);
     p_loanDuration := JSON_roundtrip (loanDuration i);
     p_lotFees := JSON_roundtrip (lotFees i) |}.
End Inputs.

(** An element of [comparisonMortgages].  [id] is a reading of [Date.now()],
    a count of milliseconds; the rate, the amount and the duration are kept
    as [JSON.parse] gave them, [lotFees] is [inputs.lotFees || 0]. *)
Module Entry.
Record t : Type := {
  id : Z;
  interestRate : jsval;
  loanAmount : jsval;
  loanDuration : jsval;
  lotFees : number;
  monthlyPayment : number;
  totalInterest : number;
  totalAmount : number
}.
End Entry.

(** The state the renderer works on: the global [comparisonMortgages] and
    the parts of the document the handlers read or write. *)
Record page : Type := {
  comparisonMortgages : list Entry.t;
  dataset_inputs : option Inputs.parsed;   (* results.dataset.inputs *)
  errorMessage_text : string;
  errorMessage_visible : bool;
  results_visible : bool;
  results_shown : option result;           (* the three amounts displayed *)
  lotFeesNote : string;
  comparisonSection_visible : bool;
  comparisonTableBody : list Entry.t       (* the rows rendered *)
}.

Definition initial_page : page :=
  {| comparisonMortgages := [];
     dataset_inputs := None;
     errorMessage_text := EmptyString;
     errorMessage_visible := false;
     results_visible := false;
     results_shown := None;
     lotFeesNote := EmptyString;
     comparisonSection_visible := false;
     comparisonTableBody := [] |}.

(** What the user does: the two buttons of the form, with the four field
    values already parsed by [parseFloat] and [parseInt] and the reading of
    the clock, and a row's Remove button. *)
Inductive event : Type :=
| ClickCalculate (interestRate loanAmount loanDuration lotFees : number)
| ClickAddToComparison (now : Z)
| ClickRemove (id : Z).

Section Renderer.

(** [Math.pow] of a positive base to a finite exponent that is not an
    integer is irrational in general; the value the host returns there is
    left open.  The engine reaches it only when [years * 12] is not an
    integer. *)
Variable pow_nonint : Q -> Q -> number.

(** [Math.pow(base, exponent)], by the cases of ECMAScript's
    Number::exponentiate; an integer exponent is computed exactly. *)
Definition Math_pow (base exponent : number) : number :=
  match exponent with
  | NaN => NaN
  | Fin e =>
      if Qeq_bool e 0 then num 1 else
      match base with
      | NaN => NaN
      | Inf false => if Qltb 0 e then Inf false else num 0
      | Inf true => if Qltb 0 e then Inf (Qis_odd_integer e) else num 0
      | Fin b =>
          if Qeq_bool b 0 then (if Qltb 0 e then num 0 else Inf false)
          else if Qis_integer e then Fin (Qred (b ^ Qnum (Qred e)))
          else if Qltb b 0 then NaN
          else pow_nonint b e
      end
  | Inf neg =>
      match base with
      | NaN => NaN
      | Inf _ => if neg then num 0 else Inf false
      | Fin b =>
          match Qabs b ?= 1 with
          | Gt => if neg then num 0 else Inf false
          | Eq => NaN
          | Lt => if neg then Inf false else num 0
          end
      end
  end.

(** ** The amortization engine *)

Definition calculateMortgage (principal annualRate years : number) : result :=
  let monthlyRate := (annualRate / num 100 / num 12)%js in
  let numberOfPayments := (years * num 12)%js in
  let monthlyPayment :=
    if (monthlyRate === num 0)%js
    then (principal / numberOfPayments)%js
    else
      let compoundFactor := Math_pow (num 1 + monthlyRate)%js numberOfPayments in
      (principal * (monthlyRate * compoundFactor) / (compoundFactor - num 1))%js in
  let totalAmount := (monthlyPayment * numberOfPayments)%js in
  let totalInterest := (totalAmount - principal)%js in
  {| monthlyPayment := monthlyPayment;
     totalInterest := totalInterest;
     totalAmount := totalAmount |}.

(** ** Input validation *)

Definition msg_interestRate : string :=
  "Please enter a valid interest rate (0 or greater)".
Definition msg_loanAmount : string :=
  "Please enter a valid loan amount (greater than 0)".
Definition msg_loanDuration : string :=
  "Please enter a valid loan duration (whole number of years, greater than 0)".
Definition msg_tooHigh : string :=
  "Interest rate seems too high. Please enter a rate between 0 and 100%".
Definition msg_lotFees : string :=
  "Please enter a valid lot fees amount (0 or greater)".

(** [None] is the source's [null]. *)
Definition validateInputs (interestRate loanAmount loanDuration lotFees : number)
  : option string :=
  if isNaN interestRate || (interestRate < num 0)%js then Some msg_interestRate
  else if isNaN loanAmount || (loanAmount <= num 0)%js then Some msg_loanAmount
  else if isNaN loanDuration || (loanDuration <= num 0)%js
          || negb (Number_isInteger loanDuration) then Some msg_loanDuration
  else if (interestRate > num 100)%js then Some msg_tooHigh
  else if isNaN lotFees || (lotFees < num 0)%js then Some msg_lotFees
  else None.

(** ** The document *)

Definition showError (message : string) (p : page) : page :=
  {| comparisonMortgages := comparisonMortgages p;
     dataset_inputs := dataset_inputs p;
     errorMessage_text := message;
     errorMessage_visible := true;
     results_visible := false;
     results_shown := results_shown p;
     lotFeesNote := lotFeesNote p;
     comparisonSection_visible := comparisonSection_visible p;
     comparisonTableBody := comparisonTableBody p |}.

Definition hideError (p : page) : page :=
  {| comparisonMortgages := comparisonMortgages p;
     dataset_inputs := dataset_inputs p;
     errorMessage_text := errorMessage_text p;
     errorMessage_visible := false;
     results_visible := results_visible p;
     results_shown := results_shown p;
     lotFeesNote := lotFeesNote p;
     comparisonSection_visible := comparisonSection_visible p;
     comparisonTableBody := comparisonTableBody p |}.

Definition displayResults (results : result) (inputs : option Inputs.t)
  (p : page) : page :=
  {| comparisonMortgages := comparisonMortgages p;
     dataset_inputs :=
       match inputs with
       | Some i => Some (Inputs.roundtrip i)
       | None => dataset_inputs p
       end;
     errorMessage_text := errorMessage_text p;
     errorMessage_visible := errorMessage_visible p;
     results_visible := true;
     results_shown := Some results;
     lotFeesNote :=
       match inputs with
       | Some i =>
           if (Inputs.lotFees i > num 0)%js then "(includes fees)"%string
           else EmptyString
       | None => EmptyString
       end;
     comparisonSection_visible := comparisonSection_visible p;
     comparisonTableBody := comparisonTableBody p |}.

(** An assignment to the global [comparisonMortgages]. *)
Definition set_comparisonMortgages (l : list Entry.t) (p : page) : page :=
  {| comparisonMortgages := l;
     dataset_inputs := dataset_inputs p;
     errorMessage_text := errorMessage_text p;
     errorMessage_visible := errorMessage_visible p;
     results_visible := results_visible p;
     results_shown := results_shown p;
     lotFeesNote := lotFeesNote p;
     comparisonSection_visible := comparisonSection_visible p;
     comparisonTableBody := comparisonTableBody p |}.

(** An empty list hides the section and leaves the rows as they are;
    otherwise the rows are rebuilt from the list.  The text of the counter
    is not kept. *)
Definition updateComparisonDisplay (p : page) : page :=
  {| comparisonMortgages := comparisonMortgages p;
     dataset_inputs := dataset_inputs p;
     errorMessage_text := errorMessage_text p;
     errorMessage_visible := errorMessage_visible p;
     results_visible := results_visible p;
     results_shown := results_shown p;
     lotFeesNote := lotFeesNote p;
     comparisonSection_visible :=
       negb (Nat.eqb (List.length (comparisonMortgages p)) 0);
     comparisonTableBody :=
       if Nat.eqb (List.length (comparisonMortgages p)) 0
       then comparisonTableBody p
       else comparisonMortgages p |}.

(** ** The handlers *)

(** The four arguments are the numbers [handleCalculate] reads from the
    fields with [parseFloat], [parseFormattedNumber] and [parseInt] (an empty
    fees field counts as 0); reading the text is not part of the model. *)
Definition handleCalculate
  (interestRate loanAmount loanDuration lotFees : number) (p : page) : page :=
  let p := hideError p in
  match validateInputs interestRate loanAmount loanDuration lotFees with
  | Some error => showError error p
  | None =>
      let mortgageResults := calculateMortgage loanAmount interestRate loanDuration in
      let monthlyPaymentWithLotFees := (monthlyPayment mortgageResults + lotFees)%js in
      let numberOfPayments := (loanDuration * num 12)%js in
      let totalInterest := totalInterest mortgageResults in
      let totalAmount := (monthlyPaymentWithLotFees * numberOfPayments)%js in
      let results :=
        {| monthlyPayment := monthlyPaymentWithLotFees;
           totalInterest := totalInterest;
           totalAmount := totalAmount |} in
      let inputs :=
        {| Inputs.interestRate := interestRate;
           Inputs.loanAmount := loanAmount;
           Inputs.loanDuration := loanDuration;
           Inputs.lotFees := lotFees |} in
      displayResults results (Some inputs) p
  end.

Definition msg_calculateFirst : string :=
  "Please calculate a mortgage first before adding to comparison".

(** [now] is what [Date.now()] returns during the call. *)
Definition addToComparison (now : Z) (p : page) : page :=
  match dataset_inputs p with
  | None => showError msg_calculateFirst p
  | Some inputs =>
      let interestRate := Inputs.p_interestRate inputs in
      let loanAmount := Inputs.p_loanAmount inputs in
      let loanDuration := Inputs.p_loanDuration inputs in
      let lotFees := or_zero (Inputs.p_lotFees inputs) in
      let mortgageResults :=
        calculateMortgage (ToNumber loanAmount) (ToNumber interestRate)
          (ToNumber loanDuration) in
      let monthlyPaymentWithLotFees := (monthlyPayment mortgageResults + lotFees)%js in
      let numberOfPayments := (ToNumber loanDuration * num 12)%js in
      let totalInterest := totalInterest mortgageResults in
      let totalAmount := (monthlyPaymentWithLotFees * numberOfPayments)%js in
      let entry :=
        {| Entry.id := now;
           Entry.interestRate := interestRate;
           Entry.loanAmount := loanAmount;
           Entry.loanDuration := loanDuration;
           Entry.lotFees := lotFees;
           Entry.monthlyPayment := monthlyPaymentWithLotFees;
           Entry.totalInterest := totalInterest;
           Entry.totalAmount := totalAmount |} in
      hideError
        (updateComparisonDisplay
           (set_comparisonMortgages (comparisonMortgages p ++ [entry]) p))
  end.

Definition removeFromComparison (id : Z) (p : page) : page :=
  updateComparisonDisplay
    (set_comparisonMortgages
       (filter (fun entry => negb (Z.eqb (Entry.id entry) id))
          (comparisonMortgages p)) p).

(** ** Runs of the page *)

Definition step (p : page) (ev : event) : page :=
  match ev with
  | ClickCalculate interestRate loanAmount loanDuration lotFees =>
      handleCalculate interestRate loanAmount loanDuration lotFees p
  | ClickAddToComparison now => addToComparison now p
  | ClickRemove id => removeFromComparison id p
  end.

Definition run (evs : list event) (p : page) : page := fold_left step evs p.

End Renderer.

(** * The engine over binary64

    [calculateMortgage] once more, with the operations of IEEE-754 doubles.
    [Math.pow] is left to the host: ECMAScript asks for an approximation of
    the power. *)

Record result_binary64 : Type := {
  monthlyPayment_binary64 : PrimFloat.float;
  totalInterest_binary64 : PrimFloat.float;
  totalAmount_binary64 : PrimFloat.float
}.

Definition calculateMortgage_binary64
  (Math_pow : PrimFloat.float -> PrimFloat.float -> PrimFloat.float)
  (principal annualRate years : PrimFloat.float) : result_binary64 :=
  let monthlyRate := (annualRate / 100 / 12)%float in
  let numberOfPayments := (years * 12)%float in
  let monthlyPayment :=
    if (monthlyRate =? 0)%float
    then (principal / numberOfPayments)%float
    else
      let compoundFactor := Math_pow (1 + monthlyRate)%float numberOfPayments in
      (principal * (monthlyRate * compoundFactor) / (compoundFactor - 1))%float in
  let totalAmount := (monthlyPayment * numberOfPayments)%float in
  let totalInterest := (totalAmount - principal)%float in
  {| monthlyPayment_binary64 := monthlyPayment;
     totalInterest_binary64 := totalInterest;
     totalAmount_binary64 := totalAmount |}.

(** The double nearest to 1e-20, what [parseFloat] gives for
    "0.00000000000000000001". *)
Definition rate_1e_minus_20 : PrimFloat.float := 0x1.79ca10c924223p-67%float.

(** The rational a finite double stands for (0 for the others). *)
Definition Q_of_binary64 (x : PrimFloat.float) : Q :=
  match Prim2SF x with
  | S754_finite s m e => (if s then -1 else 1) * inject_Z (Zpos m) * 2 ^ e
  | _ => 0
  end.

(** A double as a number of the page: what the tests of [validateInputs]
    see of it. *)
Definition number_of_binary64 (x : PrimFloat.float) : number :=
  match Prim2SF x with
  | S754_nan => NaN
  | S754_infinity s => Inf s
  | _ => Fin (Qred (Q_of_binary64 x))
  end.

(** * Reference definitions

    The definitions of the specification that the code is compared with,
    and the predicates the statements use. *)

(** The three amounts of the reference definition, over the rationals. *)
Record amortization : Type := {
  ref_monthlyPayment : Q;
  ref_totalInterest : Q;
  ref_totalAmount : Q
}.

(** [computePayment] of section 4.1: r = rate / 100 / 12, n = years * 12,
    the payment is principal / n when r is zero and
    principal * r * (1+r)^n / ((1+r)^n - 1) otherwise. *)
Definition computePayment_spec (principal annualRatePercent : Q) (termYears : Z)
  : amortization :=
  let r := annualRatePercent / 100 / 12 in
  let n := (termYears * 12)%Z in
  let m :=
    if Qeq_bool r 0 then principal / inject_Z n
    else principal * r * (1 + r) ^ n / ((1 + r) ^ n - 1) in
  {| ref_monthlyPayment := m;
     ref_totalInterest := m * inject_Z n - principal;
     ref_totalAmount := m * inject_Z n |}.

(** The reference amounts as numbers of the source, in lowest terms. *)
Definition result_of (a : amortization) : result :=
  {| monthlyPayment := Fin (Qred (ref_monthlyPayment a));
     totalInterest := Fin (Qred (ref_totalInterest a));
     totalAmount := Fin (Qred (ref_totalAmount a)) |}.

(** Two readings of "is a real number": a finite value, or anything but
    NaN. *)
Definition is_finite (x : number) : bool :=
  match x with Fin _ => true | _ => false end.

Definition not_NaN (x : number) : bool := negb (isNaN x).

(** The five conditions in the words of the specification, each with the
    message of its failure; [real] is the reading of "is a real number". *)
Definition checks (real : number -> bool)
  (interestRate principal termYears fees : number) : list (bool * string) :=
  [ (real interestRate && (num 0 <= interestRate)%js, msg_interestRate);
    (real principal && (num 0 < principal)%js, msg_loanAmount);
    (Number_isInteger termYears && (num 0 < termYears)%js, msg_loanDuration);
    ((interestRate <= num 100)%js, msg_tooHigh);
    (real fees && (num 0 <= fees)%js, msg_lotFees) ].

(** The message of the first condition that fails, [None] when none does. *)
Fixpoint first_failing (l : list (bool * string)) : option string :=
  match l with
  | [] => None
  | (ok, message) :: l' => if ok then first_failing l' else Some message
  end.

(** [validate] of section 4.2. *)
Definition validate_spec (real : number -> bool)
  (interestRate principal termYears fees : number) : option string :=
  first_failing (checks real interestRate principal termYears fees).

(** [applyFees] in the words of the specification: the fees are added to the
    monthly payment, the total amount is the new payment times the number of
    payments, the total interest is kept. *)
Definition applyFees_spec (r : result) (monthlyFees n : number) : result :=
  {| monthlyPayment := (monthlyPayment r + monthlyFees)%js;
     totalInterest := totalInterest r;
     totalAmount := ((monthlyPayment r + monthlyFees) * n)%js |}.

(** The three amounts an entry of the comparison carries. *)
Definition entry_result (e : Entry.t) : result :=
  {| monthlyPayment := Entry.monthlyPayment e;
     totalInterest := Entry.totalInterest e;
     totalAmount := Entry.totalAmount e |}.

(** An entry agrees with its own stored inputs when its three amounts are
    the engine's amounts for these inputs with the stored fees applied. *)
Definition entry_consistent (pow_nonint : Q -> Q -> number) (e : Entry.t) : Prop :=
  entry_result e
  = applyFees_spec
      (calculateMortgage pow_nonint
         (ToNumber (Entry.loanAmount e)) (ToNumber (Entry.interestRate e))
         (ToNumber (Entry.loanDuration e)))
      (Entry.lotFees e) (ToNumber (Entry.loanDuration e) * num 12)%js.

(** The entries of [l] in their order, some of them left out. *)
Inductive subsequence {A : Type} : list A -> list A -> Prop :=
| subsequence_nil : subsequence [] []
| subsequence_keep x l l' : subsequence l l' -> subsequence (x :: l) (x :: l')
| subsequence_drop x l l' : subsequence l l' -> subsequence l (x :: l').

(** * Runs and their ids *)

(** The ids of the entries in the list, in the order of the list. *)
Definition ids (p : page) : list Z := map Entry.id (comparisonMortgages p).

(** A calculation that the validation rejects. *)
Definition calculation_fails (ev : event) : Prop :=
  match ev with
  | ClickCalculate interestRate loanAmount loanDuration lotFees =>
      validateInputs interestRate loanAmount loanDuration lotFees <> None
  | _ => True
  end.

(** The readings of the clock a run is given, one for each click on the
    add button. *)
Fixpoint clock_readings (evs : list event) : list Z :=
  match evs with
  | [] => []
  | ClickAddToComparison now :: evs' => now :: clock_readings evs'
  | _ :: evs' => clock_readings evs'
  end.

(** The ids a click assigns, read off the list: the ids of the entries the
    list holds after the click behind those it held before.  An add puts its
    entry at the end of the list; a calculation and a removal put none. *)
Definition assigned_id (pow_nonint : Q -> Q -> number) (ev : event) (p : page)
  : list Z :=
  map Entry.id
    (skipn (List.length (comparisonMortgages p))
       (comparisonMortgages (step pow_nonint p ev))).

(** The ids a run assigns, in the order of assignment. *)
Fixpoint assigned_ids (pow_nonint : Q -> Q -> number) (evs : list event)
  (p : page) : list Z :=
  match evs with
  | [] => []
  | ev :: evs' =>
      assigned_id pow_nonint ev p
      ++ assigned_ids pow_nonint evs' (step pow_nonint p ev)
  end.

(** * Concrete pages for the examples *)

(** A host function for the inputs that never reach [pow_nonint]. *)
Definition pow_unreached : Q -> Q -> number := fun _ _ => NaN.

(** A host function over binary64 for the evaluations at base 1, where the
    power is 1 whatever the exponent. *)
Definition pow_of_one : PrimFloat.float -> PrimFloat.float -> PrimFloat.float :=
  fun _ _ => 1%float.

(** The page after a calculation of 100000 over 30 years at rate zero with
    monthly fees of 50, and the inputs it has stored. *)
Definition page_after_calculate : page :=
  handleCalculate pow_unreached (num 0) (num 100000) (num 30) (num 50) initial_page.

Definition inputs_after_calculate : Inputs.parsed :=
  {| Inputs.p_interestRate := JNum (num 0);
     Inputs.p_loanAmount := JNum (num 100000);
     Inputs.p_loanDuration := JNum (num 30);
     Inputs.p_lotFees := JNum (num 50) |}.

(** A page whose list holds entries with the given ids. *)
Definition entry_with_id (id : Z) : Entry.t :=
  {| Entry.id := id;
     Entry.interestRate := JNum (num 5);
     Entry.loanAmount := JNum (num 100000);
     Entry.loanDuration := JNum (num 30);
     Entry.lotFees := num 0;
     Entry.monthlyPayment := num 0;
     Entry.totalInterest := num 0;
     Entry.totalAmount := num 0 |}.

Definition page_with_ids (ids : list Z) : page :=
  set_comparisonMortgages (map entry_with_id ids) initial_page.

(** * The text of the fields

    The strings of the page are sequences of UTF-16 code units, as in the
    source: [length], the regular expressions and the whitespace of [trim]
    and [parseInt] all count code units. *)

Definition code_unit : Type := N.
Definition jsstring : Type := list code_unit.

(** A literal of the source, all of whose characters are ASCII. *)
Fixpoint units (s : string) : jsstring :=
  match s with
  | EmptyString => []
  | String c s' => Ascii.N_of_ascii c :: units s'
  end.

Definition dot : code_unit := 46%N.
Definition comma : code_unit := 44%N.

(** [\d] *)
Definition is_digit (c : code_unit) : bool := (48 <=? c)%N && (c <=? 57)%N.

(** [\w], which decides the word boundaries of [\B] *)
Definition is_word (c : code_unit) : bool :=
  is_digit c
  || ((65 <=? c)%N && (c <=? 90)%N)
  || ((97 <=? c)%N && (c <=? 122)%N)
  || (c =? 95)%N.

(** The white space and line terminators that [trim] and [parseInt] skip. *)
Definition is_whitespace (c : code_unit) : bool :=
  existsb (N.eqb c)
    [9; 10; 11; 12; 13; 32; 160; 5760; 8232; 8233; 8239; 8287; 12288; 65279]%N
  || ((8192 <=? c)%N && (c <=? 8202)%N).

(** ** [formatNumberWithCommas] *)

(** [value.replace(/[^\d.]/g, '')] *)
Definition remove_non_numeric (value : jsstring) : jsstring :=
  filter (fun c => is_digit c || (c =? dot)%N) value.

(** [s.split('.')]: the array is never empty, and is kept as its first
    element and the others. *)
Fixpoint split_dot (s : jsstring) : jsstring * list jsstring :=
  match s with
  | [] => ([], [])
  | c :: s' =>
      let (part, parts) := split_dot s' in
      if (c =? dot)%N then ([], part :: parts) else (c :: part, parts)
  end.

(** [parts.join('.')] *)
Definition join_dot (parts : jsstring * list jsstring) : jsstring :=
  fst parts ++ flat_map (fun part => dot :: part) (snd parts).

(** The number of digits [s] starts with. *)
Fixpoint digit_run (s : jsstring) : nat :=
  match s with
  | c :: s' => if is_digit c then S (digit_run s') else 0
  | [] => 0
  end.

(** [(?=(\d{3})+(?!\d))]: what follows is a run of digits whose length is a
    positive multiple of three. *)
Definition thousands_ahead (s : jsstring) : bool :=
  (0 <? digit_run s)%nat && (digit_run s mod 3 =? 0)%nat.

(** [\B] between [prev] and [next], [None] at an end of the string. *)
Definition non_boundary (prev next : option code_unit) : bool :=
  Bool.eqb (match prev with Some c => is_word c | None => false end)
           (match next with Some c => is_word c | None => false end).

(** [s.replace(/\B(?=(\d{3})+(?!\d))/g, ',')], where [prev] is the code unit
    before [s]: a comma goes in at every position the expression matches. *)
Fixpoint insert_commas (prev : option code_unit) (s : jsstring) : jsstring :=
  match s with
  | [] => []
  | c :: s' =>
      (if non_boundary prev (Some c) && thousands_ahead s then [comma] else [])
      ++ c :: insert_commas (Some c) s'
  end.

Definition formatNumberWithCommas (value : jsstring) : jsstring :=
  let cleaned := remove_non_numeric value in
  let parts := split_dot cleaned in
  let parts := (insert_commas None (fst parts), snd parts) in
  join_dot parts.

(** [value.replace(/,/g, '')] *)
Definition remove_commas (value : jsstring) : jsstring :=
  filter (fun c => negb (c =? comma)%N) value.

(** [parseFloat] is the host's. *)
Definition parseFormattedNumber (parseFloat : jsstring -> number)
  (value : jsstring) : number :=
  parseFloat (remove_commas value).

(** ** [handleLoanAmountInput] *)

(** The loan amount field: its text and its selection. *)
Module Input.
Record t : Type := {
  value : jsstring;
  selectionStart : Z;
  selectionEnd : Z
}.
End Input.

(** [input.setSelectionRange(start, end)]: the arguments are unsigned longs,
    so they are taken modulo 2^32, then the end is capped by the length of
    the text and the start by the end. *)
Definition setSelectionRange (start end_ : Z) (input : Input.t) : Input.t :=
  let len := Z.of_nat (List.length (Input.value input)) in
  let end_ := Z.min (end_ mod 2 ^ 32) len in
  let start := Z.min (start mod 2 ^ 32) end_ in
  {| Input.value := Input.value input;
     Input.selectionStart := start;
     Input.selectionEnd := end_ |}.

(** [input.value = text]: the cursor goes to the end of the new text. *)
Definition set_value (text : jsstring) (input : Input.t) : Input.t :=
  {| Input.value := text;
     Input.selectionStart := Z.of_nat (List.length text);
     Input.selectionEnd := Z.of_nat (List.length text) |}.

Definition handleLoanAmountInput (input : Input.t) : Input.t :=
  let cursorPosition := Input.selectionStart input in
  let oldValue := Input.value input in
  let oldLength := Z.of_nat (List.length oldValue) in
  let formatted := formatNumberWithCommas (Input.value input) in
  let input := set_value formatted input in
  let newLength := Z.of_nat (List.length formatted) in
  let diff := (newLength - oldLength)%Z in
  let newPosition := (cursorPosition + diff)%Z in
  setSelectionRange newPosition newPosition input.

(** ** Reading the fields in [handleCalculate] *)

(** The string without the white space it starts with. *)
Fixpoint trim_start (s : jsstring) : jsstring :=
  match s with
  | c :: s' => if is_whitespace c then trim_start s' else s
  | [] => []
  end.

(** [s.trim()] *)
Definition trim (s : jsstring) : jsstring :=
  rev (trim_start (rev (trim_start s))).

(** The digits [s] starts with. *)
Fixpoint digits_prefix (s : jsstring) : jsstring :=
  match s with
  | c :: s' => if is_digit c then c :: digits_prefix s' else []
  | [] => []
  end.

(** The integer a string of digits denotes in base ten. *)
Definition decimal_value (digits : jsstring) : Z :=
  fold_left (fun acc c => (10 * acc + (Z.of_N c - 48))%Z) digits 0%Z.

(** The largest integer that still rounds to a double: from
    2^1024 - 2^970 on, the Number value of an integer is an Infinity. *)
Definition overflow_threshold : Z := (2 ^ 1024 - 2 ^ 970)%Z.

(** The Number value of an integer.  Every double from 2^53 on is a whole
    number, so the rounding of an integer in range gives a whole number
    again; the model keeps the integer itself there. *)
Definition Number_of_integer (z : Z) : number :=
  if (overflow_threshold <=? Z.abs z)%Z then Inf (z <? 0)%Z else num z.

(** [parseInt(string, 10)]: white space is skipped, then a sign, then the
    digits are read up to the first code unit that is not a digit; no digit
    gives NaN, and the integer read is returned as a Number value. *)
Definition parseInt (string : jsstring) : number :=
  let S := trim_start string in
  let sign_S :=
    match S with
    | c :: S' =>
        if (c =? 45)%N then ((-1)%Z, S')
        else if (c =? 43)%N then (1%Z, S')
        else (1%Z, S)
    | [] => (1%Z, [])
    end in
  match digits_prefix (snd sign_S) with
  | [] => NaN
  | digits => Number_of_integer (fst sign_S * decimal_value digits)
  end.

(** The text of the four fields of the form. *)
Module Fields.
Record t : Type := {
  interestRate : jsstring;
  loanAmount : jsstring;
  loanDuration : jsstring;
  lotFees : jsstring
}.
End Fields.

(** [handleCalculate] from the text of the fields: the four values are read,
    then validated and computed by [handleCalculate] above. *)
Definition handleCalculate_click (parseFloat : jsstring -> number)
  (pow_nonint : Q -> Q -> number) (fields : Fields.t) (p : page) : page :=
  let interestRate := parseFloat (Fields.interestRate fields) in
  let loanAmount := parseFormattedNumber parseFloat (Fields.loanAmount fields) in
  let loanDuration := parseInt (Fields.loanDuration fields) in
  let lotFeesInput := trim (Fields.lotFees fields) in
  let lotFees :=
    match lotFeesInput with
    | [] => num 0
    | _ => parseFormattedNumber parseFloat lotFeesInput
    end in
  handleCalculate pow_nonint interestRate loanAmount loanDuration lotFees p.

(** A calculation followed by an add. *)
Definition calculate_then_add : list event :=
  [ClickCalculate (num 0) (num 100000) (num 30) (num 50);
   ClickAddToComparison 1000].

(** The field holding 1234 with the cursor before the last digit. *)
Definition input_1234 : Input.t :=
  {| Input.value := units "1234"%string;
     Input.selectionStart := 3;
     Input.selectionEnd := 3 |}.

(** ** Predicates on the entries and on the page *)

(** What the stored inputs of an entry look like when they come from a
    calculation that passed the validation: a finite rate between 0 and
    100, a positive whole number of years, a finite principal above zero or
    [null], and finite fees that are not negative. *)
Definition entry_checked (e : Entry.t) : Prop :=
  (exists a, Entry.interestRate e = JNum (Fin a) /\ 0 <= a <= 100)
  /\ (Entry.loanAmount e = JNull
      \/ exists p, Entry.loanAmount e = JNum (Fin p) /\ 0 < p)
  /\ (exists q y, Entry.loanDuration e = JNum (Fin q)
                  /\ q == inject_Z y /\ (0 < y)%Z)
  /\ (exists f, Entry.lotFees e = Fin f /\ 0 <= f).

(** The same for the inputs kept in [dataset.inputs]. *)
Definition inputs_checked (i : Inputs.parsed) : Prop :=
  (exists a, Inputs.p_interestRate i = JNum (Fin a) /\ 0 <= a <= 100)
  /\ (Inputs.p_loanAmount i = JNull
      \/ exists p, Inputs.p_loanAmount i = JNum (Fin p) /\ 0 < p)
  /\ (exists q y, Inputs.p_loanDuration i = JNum (Fin q)
                  /\ q == inject_Z y /\ (0 < y)%Z)
  /\ (Inputs.p_lotFees i = JNull
      \/ exists f, Inputs.p_lotFees i = JNum (Fin f) /\ 0 <= f).

(** What a run keeps for the stored inputs and for every entry. *)
Definition entry_good (pow_nonint : Q -> Q -> number) (e : Entry.t) : Prop :=
  entry_checked e /\ entry_consistent pow_nonint e.

Definition page_good (pow_nonint : Q -> Q -> number) (p : page) : Prop :=
  (forall i, dataset_inputs p = Some i -> inputs_checked i)
  /\ Forall (entry_good pow_nonint) (comparisonMortgages p).

(** The comparison section shows the list: it is visible exactly when the
    list is not empty, and its rows are then the entries of the list. *)
Definition table_shows_list (p : page) : Prop :=
  comparisonSection_visible p = negb (Nat.eqb (List.length (comparisonMortgages p)) 0)
  /\ (comparisonMortgages p <> [] -> comparisonTableBody p = comparisonMortgages p).

(** * Properties *)

(** ** Arithmetic of finite numbers *)

Lemma Qltb_lt (a b : Q) : Qltb a b = true <-> a < b.
Proof.
  unfold Qltb. rewrite negb_true_iff. split; intro H.
  - apply Qnot_le_lt. intro L. apply Qle_bool_iff in L. congruence.
  - destruct (Qle_bool b a) eqn:E; [|reflexivity].
    apply Qle_bool_iff in E. exfalso. exact (Qlt_not_le _ _ H E).
Qed.

Lemma Qeq_bool_false (a b : Q) : ~ a == b -> Qeq_bool a b = false.
Proof.
  intro H. destruct (Qeq_bool a b) eqn:E; [|reflexivity].
  apply Qeq_bool_iff in E. contradiction.
Qed.

Lemma Qred_inject_Z (z : Z) : Qred (inject_Z z) = inject_Z z.
Proof.
  apply Qcanon.Qred_iff. simpl. apply Z.gcd_1_r.
Qed.

Lemma Qis_integer_inject_Z (q : Q) (z : Z) :
  q == inject_Z z -> Qis_integer q = true /\ Qnum (Qred q) = z.
Proof.
  intro H. unfold Qis_integer.
  rewrite (Qred_complete _ _ H), Qred_inject_Z. simpl. split; reflexivity.
Qed.

Lemma Qis_integer_inv (q : Q) :
  Qis_integer q = true -> q == inject_Z (Qnum (Qred q)).
Proof.
  unfold Qis_integer. intro H. apply Pos.eqb_eq in H.
  rewrite <- (Qred_correct q) at 1.
  destruct (Qred q) as [n d]. simpl in *. subst d. reflexivity.
Qed.

Lemma Fin_Qred_eq (a b : Q) : a == b -> Fin (Qred a) = Fin (Qred b).
Proof. intro H. f_equal. apply Qred_complete, H. Qed.

Lemma num_div_Fin (a b : Q) :
  ~ b == 0 -> (Fin a / Fin b)%js = Fin (Qred (a / b)).
Proof.
  intro H. unfold num_div. rewrite (Qeq_bool_false _ _ H). reflexivity.
Qed.

Lemma num_mul_int (q : Q) (y k : Z) :
  q == inject_Z y -> (Fin q * num k)%js = num (y * k).
Proof.
  intro H. unfold num, num_mul.
  rewrite <- (Qred_inject_Z (y * k)). apply Fin_Qred_eq.
  rewrite H, inject_Z_mult. reflexivity.
Qed.

Lemma monthlyRate_Fin (a : Q) :
  (Fin a / num 100 / num 12)%js = Fin (Qred (a / 100 / 12)).
Proof.
  unfold num.
  rewrite !num_div_Fin by (intro H; discriminate H).
  apply Fin_Qred_eq. rewrite Qred_correct. reflexivity.
Qed.

Lemma compound_gt_1 (r : Q) (n : Z) :
  0 < r -> (0 < n)%Z -> 1 < (1 + r) ^ n.
Proof.
  intros Hr Hn. apply Qpower_1_lt; [|exact Hn].
  rewrite <- (Qplus_0_r 1) at 1. apply Qplus_lt_r. exact Hr.
Qed.

Section Math_pow_facts.
Variable pow_nonint : Q -> Q -> number.

Lemma Math_pow_int (b : Q) (n : Z) :
  ~ b == 0 -> n <> 0%Z ->
  Math_pow pow_nonint (Fin b) (num n) = Fin (Qred (b ^ n)).
Proof.
  intros Hb Hn. unfold Math_pow, num.
  rewrite Qeq_bool_false.
  2:{ intro H. apply Hn. unfold Qeq in H. simpl in H. lia. }
  rewrite (Qeq_bool_false _ _ Hb).
  destruct (Qis_integer_inject_Z (inject_Z n) n (Qeq_refl _)) as [-> ->].
  reflexivity.
Qed.

End Math_pow_facts.

(** ** The engine where no operation rounds *)

Section Engine.
Variable pow_nonint : Q -> Q -> number.

(** On a finite principal, a finite rate that is not negative and a positive
    whole number of years, the expression of the engine is the expression
    of the reference definition: over the rationals, where no operation
    rounds, the two agree. *)
Lemma calculateMortgage_exact (p a q : Q) (y : Z) :
  0 <= a -> q == inject_Z y -> (0 < y)%Z ->
  calculateMortgage pow_nonint (Fin p) (Fin a) (Fin q)
  = result_of (computePayment_spec p a y).
Proof.
  intros Ha Hq Hy.
  assert (Hn : ~ inject_Z (y * 12) == 0).
  { intro H. unfold Qeq in H. simpl in H. lia. }
  assert (Hr : 0 <= a / 100 / 12).
  { unfold Qdiv. repeat apply Qmult_le_0_compat; try exact Ha; discriminate. }
  unfold calculateMortgage, computePayment_spec, result_of. cbn zeta.
  rewrite monthlyRate_Fin, (num_mul_int q y 12 Hq).
  set (r := a / 100 / 12) in *. set (n := (y * 12)%Z) in *.
  change (Fin (Qred r) === num 0)%js with (Qeq_bool (Qred r) 0).
  assert (E : Qeq_bool (Qred r) 0 = Qeq_bool r 0).
  { destruct (Qeq_bool r 0) eqn:E0.
    - apply Qeq_bool_iff. rewrite Qred_correct. apply Qeq_bool_iff, E0.
    - apply Qeq_bool_false. rewrite Qred_correct. apply Qeq_bool_neq, E0. }
  rewrite E. destruct (Qeq_bool r 0) eqn:E0; cbn [ref_monthlyPayment ref_totalInterest ref_totalAmount].
  - unfold num. rewrite (num_div_Fin _ _ Hn). cbn [num_mul num_sub].
    f_equal; apply Fin_Qred_eq; rewrite ?Qred_correct; reflexivity.
  - apply Qeq_bool_neq in E0.
    assert (Hr' : 0 < r).
    { apply Qle_lt_or_eq in Hr. destruct Hr as [Hr|Hr]; [exact Hr|].
      exfalso. apply E0. symmetry. exact Hr. }
    assert (Hc : 1 < (1 + r) ^ n) by (apply compound_gt_1; [exact Hr'|unfold n; lia]).
    assert (Eb : (num 1 + Fin (Qred r))%js = Fin (Qred (inject_Z 1 + Qred r)))
      by reflexivity.
    rewrite Eb, Math_pow_int.
    2:{ rewrite !Qred_correct. change (inject_Z 1) with 1. lra. }
    2:{ unfold n. lia. }
    assert (Ec : Qred (Qred (inject_Z 1 + Qred r) ^ n) == (1 + r) ^ n).
    { rewrite !Qred_correct. reflexivity. }
    set (c := Qred (Qred (inject_Z 1 + Qred r) ^ n)) in *.
    unfold num. cbn [num_mul num_sub].
    rewrite num_div_Fin.
    2:{ rewrite Qred_correct, Ec. change (inject_Z 1) with 1. lra. }
    cbn [num_mul num_sub].
    assert (Em : Qred (p * Qred (Qred r * c)) / Qred (c - inject_Z 1)
                 == p * r * (1 + r) ^ n / ((1 + r) ^ n - 1)).
    { rewrite !Qred_correct, Ec. change (inject_Z 1) with 1.
      field. lra. }
    set (m := Qred (p * Qred (Qred r * c)) / Qred (c - inject_Z 1)) in *.
    f_equal; apply Fin_Qred_eq; rewrite ?Qred_correct, Em; reflexivity.
Qed.

End Engine.

(** ** C1 and C8: the engine in binary64

    The guard [monthlyRate === 0] keeps the rate zero away from the formula,
    whose denominator [(1 + r)^n - 1] is zero there.  In binary64 the
    denominator is zero for more rates than the guard catches: at the rate
    1e-20 the monthly rate is not zero, while [1 + monthlyRate] rounds
    to 1. *)

Lemma tiny_rate_passes_guard :
  (rate_1e_minus_20 / 100 / 12 =? 0)%float = false
  /\ (1 + rate_1e_minus_20 / 100 / 12)%float = 1%float.
Proof. split; vm_compute; reflexivity. Qed.



(** C8, at the input (100000, 1e-20, 30).  The inputs pass the validation
    and the monthly rate is not zero, so the formula branch is taken; on a
    host whose [Math.pow(1, 360)] is 1 its denominator
    [compoundFactor - 1] is zero, and the three fields of the result are
    Infinity. *)
Theorem calculateMortgage_binary64_zero_denominator
  (Math_pow : PrimFloat.float -> PrimFloat.float -> PrimFloat.float) :
  Math_pow 1%float 360%float = 1%float ->
  validateInputs (number_of_binary64 rate_1e_minus_20)
    (number_of_binary64 100000) (number_of_binary64 30) (number_of_binary64 0)
  = None
  /\ (rate_1e_minus_20 / 100 / 12 =? 0)%float = false
  /\ (Math_pow (1 + rate_1e_minus_20 / 100 / 12) (30 * 12) - 1)%float = 0%float
  /\ calculateMortgage_binary64 Math_pow 100000 rate_1e_minus_20 30
     = {| monthlyPayment_binary64 := PrimFloat.infinity;
          totalInterest_binary64 := PrimFloat.infinity;
          totalAmount_binary64 := PrimFloat.infinity |}.
Proof.
  intro Math_pow_1.
  assert (En : (30 * 12)%float = 360%float) by (vm_compute; reflexivity).
  split; [vm_compute; reflexivity|].
  split; [exact (proj1 tiny_rate_passes_guard)|].
  split.
  - rewrite (proj2 tiny_rate_passes_guard), En, Math_pow_1.
    vm_compute. reflexivity.
  - unfold calculateMortgage_binary64. cbv zeta.
    rewrite (proj2 tiny_rate_passes_guard), (proj1 tiny_rate_passes_guard), En.
    rewrite Math_pow_1. vm_compute. reflexivity.
Qed.

Lemma calculateMortgage_binary64_zero_denominator_witness :
  calculateMortgage_binary64 pow_of_one 100000 rate_1e_minus_20 30
  = {| monthlyPayment_binary64 := PrimFloat.infinity;
       totalInterest_binary64 := PrimFloat.infinity;
       totalAmount_binary64 := PrimFloat.infinity |}.
Proof.
  exact (proj2 (proj2 (proj2
           (calculateMortgage_binary64_zero_denominator pow_of_one eq_refl)))).
Defined.

(** ** C2: the order of the checks *)

Lemma num_lt_not_le (x y : number) :
  isNaN x = false -> isNaN y = false -> (x < y)%js = negb (y <= x)%js.
Proof.
  destruct x as [|[]|a], y as [|[]|b]; simpl; try discriminate; reflexivity.
Qed.

Lemma num_le_not_lt (x y : number) :
  isNaN x = false -> isNaN y = false -> (x <= y)%js = negb (y < x)%js.
Proof.
  intros Hx Hy. rewrite (num_lt_not_le y x Hy Hx), negb_involutive. reflexivity.
Qed.

Lemma validateInputs_first_failing (interestRate loanAmount loanDuration lotFees : number) :
  validateInputs interestRate loanAmount loanDuration lotFees
  = validate_spec not_NaN interestRate loanAmount loanDuration lotFees.
Proof.
  unfold validateInputs, validate_spec, checks, not_NaN, num_gt.
  cbn [first_failing].
  destruct (isNaN interestRate) eqn:N1; cbn [orb andb negb]; [reflexivity|].
  rewrite (num_lt_not_le interestRate (num 0) N1 eq_refl).
  destruct (num 0 <= interestRate)%js; cbn [negb]; [|reflexivity].
  destruct (isNaN loanAmount) eqn:N2; cbn [orb andb negb]; [reflexivity|].
  rewrite (num_le_not_lt loanAmount (num 0) N2 eq_refl).
  destruct (num 0 < loanAmount)%js; cbn [negb]; [|reflexivity].
  destruct (isNaN loanDuration) eqn:N3; cbn [orb andb negb].
  { destruct loanDuration; try discriminate. reflexivity. }
  rewrite (num_le_not_lt loanDuration (num 0) N3 eq_refl).
  destruct (num 0 < loanDuration)%js; cbn [orb andb negb];
    [|rewrite andb_false_r; reflexivity].
  rewrite andb_true_r.
  destruct (Number_isInteger loanDuration); cbn [negb]; [|reflexivity].
  rewrite (num_lt_not_le (num 100) interestRate eq_refl N1).
  destruct (interestRate <= num 100)%js; cbn [negb]; [|reflexivity].
  destruct (isNaN lotFees) eqn:N5; cbn [orb andb negb]; [reflexivity|].
  rewrite (num_lt_not_le lotFees (num 0) N5 eq_refl).
  destruct (num 0 <= lotFees)%js; reflexivity.
Qed.

Lemma first_failing_None (l : list (bool * string)) :
  first_failing l = None <-> forallb fst l = true.
Proof.
  induction l as [|[ok m] l IH]; simpl.
  - split; reflexivity.
  - destruct ok; simpl; [exact IH|]. split; discriminate.
Qed.

(** What passing the validation says about each field. *)
Lemma validateInputs_None_inv (interestRate loanAmount loanDuration lotFees : number) :
  validateInputs interestRate loanAmount loanDuration lotFees = None ->
  (exists a, interestRate = Fin a /\ 0 <= a <= 100) /\
  (loanAmount = Inf false \/ exists p, loanAmount = Fin p /\ 0 < p) /\
  (exists q y, loanDuration = Fin q /\ q == inject_Z y /\ (0 < y)%Z) /\
  (lotFees = Inf false \/ exists f, lotFees = Fin f /\ 0 <= f).
Proof.
  rewrite validateInputs_first_failing. unfold validate_spec.
  rewrite first_failing_None. unfold checks, not_NaN. cbn [forallb fst].
  rewrite !andb_true_iff.
  intros [[_ H1] [[_ H2] [[H3 H3'] [H4 [[_ H5] _]]]]].
  repeat split.
  - destruct interestRate as [|[]|a]; try discriminate.
    exists a. cbn in H1, H4. apply Qle_bool_iff in H1, H4.
    repeat split; assumption.
  - destruct loanAmount as [|[]|p]; try discriminate; [left; reflexivity|].
    right. exists p. split; [reflexivity|]. apply Qltb_lt. exact H2.
  - destruct loanDuration as [|[]|q]; try discriminate.
    cbn in H3, H3'. apply Qltb_lt in H3'.
    exists q, (Qnum (Qred q)). split; [reflexivity|].
    pose proof (Qis_integer_inv q H3) as E. split; [exact E|].
    rewrite E in H3'. unfold Qlt in H3'. simpl in H3'. lia.
  - destruct lotFees as [|[]|f]; try discriminate; [left; reflexivity|].
    right. exists f. split; [reflexivity|]. apply Qle_bool_iff. exact H5.
Qed.

(** C2, as amended.  [validateInputs] applies five checks in a fixed order
    and returns the message of the first one that fails: (1) the interest
    rate is not NaN and at least 0, (2) the principal is not NaN and above
    0, (3) the duration is a positive integer, (4) the interest rate is at
    most 100, (5) the fees are not NaN and at least 0.  The five messages
    are distinct, and the answer is [null] exactly when all five checks
    pass.  [validate(-1, 100000, 30, 0)] gives the interest-rate message,
    [validate(150, 100000, 30, 0)] the too-high message, also when the fees
    are invalid as well. *)
Theorem validateInputs_checks_in_order :
  (forall interestRate principal termYears fees,
      validateInputs interestRate principal termYears fees
      = validate_spec not_NaN interestRate principal termYears fees)
  /\ (forall interestRate principal termYears fees,
         validateInputs interestRate principal termYears fees = None
         <-> forallb fst (checks not_NaN interestRate principal termYears fees) = true)
  /\ NoDup [msg_interestRate; msg_loanAmount; msg_loanDuration; msg_tooHigh; msg_lotFees]
  /\ validateInputs (num (-1)) (num 100000) (num 30) (num 0) = Some msg_interestRate
  /\ validateInputs (num 150) (num 100000) (num 30) (num 0) = Some msg_tooHigh
  /\ validateInputs (num 150) (num 100000) (num 30) (num (-10)) = Some msg_tooHigh.
Proof.
  split; [exact validateInputs_first_failing|].
  split.
  { intros r a d f. rewrite validateInputs_first_failing.
    apply first_failing_None. }
  split.
  { repeat constructor; simpl; intuition discriminate. }
  repeat split; reflexivity.
Qed.

(** With "real" read as "finite", the claim fails: an infinite principal
    passes every check of the source, and the second condition fails on it. *)
Lemma validateInputs_accepts_Infinity :
  validateInputs (num 5) (Inf false) (num 30) (num 0) = None
  /\ validate_spec is_finite (num 5) (Inf false) (num 30) (num 0)
     = Some msg_loanAmount.
Proof. split; reflexivity. Qed.

(** ** An infinite principal *)

(** An infinite principal passes the validation, and the engine then
    returns an infinite payment and a total interest that is NaN: no field
    that is a finite number. *)
Lemma calculateMortgage_infinite_principal :
  validateInputs (num 0) (Inf false) (num 30) (num 0) = None
  /\ calculateMortgage pow_unreached (Inf false) (num 0) (num 30)
     = {| monthlyPayment := Inf false;
          totalInterest := NaN;
          totalAmount := Inf false |}
  /\ is_finite (Inf false) = false
  /\ is_finite NaN = false.
Proof. split; [|split; [|split]]; vm_compute; reflexivity. Qed.

(** ** C3: the lot fees *)

Lemma num_add_Qeq (x : number) (a b : Q) :
  a == b -> (x + Fin a)%js = (x + Fin b)%js.
Proof.
  intro H. destruct x as [|s|q]; try reflexivity.
  cbn [num_add]. apply Fin_Qred_eq. rewrite H. reflexivity.
Qed.

Lemma or_zero_nonneg (x fees : number) :
  (num 0 <= fees)%js = true -> (x + or_zero (JNum fees))%js = (x + fees)%js.
Proof.
  destruct fees as [|s|f]; try discriminate; intros _; [reflexivity|].
  cbn [or_zero]. destruct (Qeq_bool f 0) eqn:E; [|reflexivity].
  apply Qeq_bool_iff in E. unfold num. apply num_add_Qeq. symmetry. exact E.
Qed.

(** C3.  On both paths the amounts delivered are the engine's amounts with
    the fees applied: the monthly payment is the engine's plus the fees, the
    total interest is the engine's, and the total amount is the new monthly
    payment times the number of payments (years * 12).  This holds for the
    result [handleCalculate] displays on inputs that pass the validation,
    and for the entry [addToComparison] appends, whatever fee that is not
    negative the stored inputs carry. *)
Theorem fees_applied_on_both_paths (pow_nonint : Q -> Q -> number) :
  (forall interestRate loanAmount loanDuration lotFees p,
      validateInputs interestRate loanAmount loanDuration lotFees = None ->
      results_shown
        (handleCalculate pow_nonint interestRate loanAmount loanDuration lotFees p)
      = Some (applyFees_spec
                (calculateMortgage pow_nonint loanAmount interestRate loanDuration)
                lotFees (loanDuration * num 12)%js))
  /\ (forall now p inputs fees,
         dataset_inputs p = Some inputs ->
         Inputs.p_lotFees inputs = JNum fees ->
         (num 0 <= fees)%js = true ->
         exists e,
           comparisonMortgages (addToComparison pow_nonint now p)
           = comparisonMortgages p ++ [e]
           /\ entry_result e
              = applyFees_spec
                  (calculateMortgage pow_nonint
                     (ToNumber (Inputs.p_loanAmount inputs))
                     (ToNumber (Inputs.p_interestRate inputs))
                     (ToNumber (Inputs.p_loanDuration inputs)))
                  fees (ToNumber (Inputs.p_loanDuration inputs) * num 12)%js).
Proof.
  split.
  - intros r a d f p V. unfold handleCalculate. rewrite V. reflexivity.
  - intros now p i fees Hi Hf Hpos. unfold addToComparison. rewrite Hi.
    eexists. split; [reflexivity|].
    unfold entry_result, applyFees_spec. cbn [Entry.monthlyPayment
      Entry.totalInterest Entry.totalAmount monthlyPayment totalInterest totalAmount].
    rewrite Hf, (or_zero_nonneg _ fees Hpos). reflexivity.
Qed.

Lemma fees_applied_on_both_paths_witness :
  results_shown page_after_calculate
  = Some (applyFees_spec
            (calculateMortgage pow_unreached (num 100000) (num 0) (num 30))
            (num 50) (num 30 * num 12)%js)
  /\ exists e,
      comparisonMortgages (addToComparison pow_unreached 1000 page_after_calculate)
      = comparisonMortgages page_after_calculate ++ [e]
      /\ entry_result e
         = applyFees_spec
             (calculateMortgage pow_unreached (num 100000) (num 0) (num 30))
             (num 50) (num 30 * num 12)%js.
Proof.
  split.
  - exact (proj1 (fees_applied_on_both_paths pow_unreached)
             (num 0) (num 100000) (num 30) (num 50) initial_page eq_refl).
  - exact (proj2 (fees_applied_on_both_paths pow_unreached)
             1000%Z page_after_calculate inputs_after_calculate (num 50)
             eq_refl eq_refl eq_refl).
Defined.

(** ** C5: total amount, total interest and principal *)






(** ** C6: what [addToComparison] stores *)

Section Store.
Variable pow_nonint : Q -> Q -> number.

Lemma addToComparison_appends (now : Z) (p : page) (inputs : Inputs.parsed) :
  dataset_inputs p = Some inputs ->
  exists e,
    comparisonMortgages (addToComparison pow_nonint now p)
    = comparisonMortgages p ++ [e]
    /\ Entry.id e = now
    /\ Entry.interestRate e = Inputs.p_interestRate inputs
    /\ Entry.loanAmount e = Inputs.p_loanAmount inputs
    /\ Entry.loanDuration e = Inputs.p_loanDuration inputs
    /\ Entry.lotFees e = or_zero (Inputs.p_lotFees inputs)
    /\ entry_consistent pow_nonint e.
Proof.
  intro H. unfold addToComparison. rewrite H. eexists.
  split; [reflexivity|]. repeat (split; [reflexivity|]). reflexivity.
Qed.

Lemma addToComparison_without_inputs (now : Z) (p : page) :
  dataset_inputs p = None ->
  addToComparison pow_nonint now p = showError msg_calculateFirst p.
Proof.
  intro H. unfold addToComparison. rewrite H. reflexivity.
Qed.

Lemma removeFromComparison_list (id : Z) (p : page) :
  comparisonMortgages (removeFromComparison id p)
  = filter (fun entry => negb (Z.eqb (Entry.id entry) id)) (comparisonMortgages p).
Proof. reflexivity. Qed.

Lemma handleCalculate_list (interestRate loanAmount loanDuration lotFees : number)
  (p : page) :
  comparisonMortgages
    (handleCalculate pow_nonint interestRate loanAmount loanDuration lotFees p)
  = comparisonMortgages p.
Proof.
  unfold handleCalculate.
  destruct (validateInputs interestRate loanAmount loanDuration lotFees);
    reflexivity.
Qed.

End Store.

(** C6.  Whatever the page, when inputs are stored [addToComparison]
    computes the new entry from these inputs alone: the entry keeps the
    stored inputs, its three amounts are the engine's amounts for its own
    inputs with its own fees applied, its id is the reading of the clock, it
    is appended after the entries already present, which stay as they were
    and in their order, and neither the amounts displayed nor anything else
    on the page enters it. *)
Theorem addToComparison_recomputes_and_appends (pow_nonint : Q -> Q -> number)
  (now : Z) (p : page) (inputs : Inputs.parsed) :
  dataset_inputs p = Some inputs ->
  exists e,
    comparisonMortgages (addToComparison pow_nonint now p)
    = comparisonMortgages p ++ [e]
    /\ Entry.id e = now
    /\ Entry.interestRate e = Inputs.p_interestRate inputs
    /\ Entry.loanAmount e = Inputs.p_loanAmount inputs
    /\ Entry.loanDuration e = Inputs.p_loanDuration inputs
    /\ Entry.lotFees e = or_zero (Inputs.p_lotFees inputs)
    /\ entry_consistent pow_nonint e
    /\ forall p',
        dataset_inputs p' = Some inputs ->
        comparisonMortgages (addToComparison pow_nonint now p')
        = comparisonMortgages p' ++ [e].
Proof.
  intro H.
  destruct (addToComparison_appends pow_nonint now p inputs H)
    as [e [E [E0 [E1 [E2 [E3 [E4 E5]]]]]]].
  exists e. repeat (split; [assumption|]).
  intros p' H'. unfold addToComparison in *. rewrite H in E. rewrite H'.
  cbn [comparisonMortgages hideError updateComparisonDisplay
       set_comparisonMortgages] in *.
  apply app_inv_head in E. rewrite E. reflexivity.
Qed.

Lemma addToComparison_recomputes_and_appends_witness :
  exists e,
    comparisonMortgages (addToComparison pow_unreached 1000 page_after_calculate)
    = comparisonMortgages page_after_calculate ++ [e]
    /\ Entry.loanAmount e = JNum (num 100000)
    /\ entry_consistent pow_unreached e.
Proof.
  destruct (addToComparison_recomputes_and_appends pow_unreached 1000
              page_after_calculate inputs_after_calculate eq_refl)
    as [e [E [_ [_ [E2 [_ [_ [E5 _]]]]]]]].
  exists e. repeat split; assumption.
Defined.

(** ** C7 and C9: [removeFromComparison] *)

Lemma filter_all {A : Type} (f : A -> bool) (l : list A) :
  (forall x, In x l -> f x = true) -> filter f l = l.
Proof.
  induction l as [|x l IH]; intro H; simpl; [reflexivity|].
  rewrite (H x (or_introl eq_refl)). f_equal. apply IH.
  intros y Hy. apply H. right. exact Hy.
Qed.

(** C7.  Removing an id that no entry bears leaves the list of entries as
    it was, element for element and in the same order; the call returns a
    page like any other call. *)
Theorem removeFromComparison_absent_id (id : Z) (p : page) :
  ~ In id (map Entry.id (comparisonMortgages p)) ->
  comparisonMortgages (removeFromComparison id p) = comparisonMortgages p.
Proof.
  intro H. rewrite removeFromComparison_list. apply filter_all.
  intros e He. apply negb_true_iff, Z.eqb_neq. intro E. apply H.
  rewrite <- E. apply in_map. exact He.
Qed.

Lemma removeFromComparison_absent_id_witness :
  comparisonMortgages (removeFromComparison 7 (page_with_ids [1; 2; 3]%Z))
  = comparisonMortgages (page_with_ids [1; 2; 3]%Z).
Proof.
  apply (removeFromComparison_absent_id 7 (page_with_ids [1; 2; 3]%Z)).
  simpl. intros [H|[H|[H|[]]]]; discriminate H.
Defined.

Lemma filter_subsequence {A : Type} (f : A -> bool) (l : list A) :
  subsequence (filter f l) l.
Proof.
  induction l as [|x l IH]; simpl; [constructor|].
  destruct (f x); constructor; exact IH.
Qed.

(** C9.  After [removeFromComparison id] the list holds exactly the entries
    whose id differs from [id], in the order they had: every entry bearing
    the id is deleted, however many there are, and no entry with that id
    remains. *)
Theorem removeFromComparison_keeps_other_ids (id : Z) (p : page) :
  let after := comparisonMortgages (removeFromComparison id p) in
  after = filter (fun e => negb (Z.eqb (Entry.id e) id)) (comparisonMortgages p)
  /\ (forall e, In e after <-> In e (comparisonMortgages p) /\ Entry.id e <> id)
  /\ subsequence after (comparisonMortgages p)
  /\ ~ In id (map Entry.id after).
Proof.
  cbn zeta. rewrite removeFromComparison_list.
  split; [reflexivity|]. split; [|split].
  - intro e. rewrite filter_In, negb_true_iff, Z.eqb_neq. reflexivity.
  - apply filter_subsequence.
  - rewrite in_map_iff. intros [e [E He]].
    apply filter_In in He. destruct He as [_ He].
    apply negb_true_iff, Z.eqb_neq in He. contradiction.
Qed.

(** ** C10: adding before any successful calculation *)

Section Runs.
Variable pow_nonint : Q -> Q -> number.

Lemma run_app (evs1 evs2 : list event) (p : page) :
  run pow_nonint (evs1 ++ evs2) p = run pow_nonint evs2 (run pow_nonint evs1 p).
Proof. unfold run. apply fold_left_app. Qed.

Lemma step_keeps_no_inputs (ev : event) (p : page) :
  calculation_fails ev -> dataset_inputs p = None ->
  dataset_inputs (step pow_nonint p ev) = None.
Proof.
  intros Hev Hp. destruct ev as [r a d f|now|id]; cbn [step].
  - unfold handleCalculate. cbn in Hev.
    destruct (validateInputs r a d f); [exact Hp|contradiction].
  - rewrite (addToComparison_without_inputs pow_nonint now p Hp). exact Hp.
  - exact Hp.
Qed.

Lemma run_keeps_no_inputs (evs : list event) (p : page) :
  Forall calculation_fails evs -> dataset_inputs p = None ->
  dataset_inputs (run pow_nonint evs p) = None.
Proof.
  intro H. revert p. induction H as [|ev evs Hev _ IH]; intros p Hp.
  - exact Hp.
  - cbn [run fold_left]. apply IH. apply step_keeps_no_inputs; assumption.
Qed.

End Runs.

(** C10.  On a page where no calculation has succeeded yet, whatever else
    was clicked, [addToComparison] shows its error message and does nothing
    else: the list of entries is the one before the call, no entry is
    appended. *)
Theorem addToComparison_before_calculation (pow_nonint : Q -> Q -> number)
  (evs : list event) (now : Z) :
  Forall calculation_fails evs ->
  let p := run pow_nonint evs initial_page in
  let p' := addToComparison pow_nonint now p in
  p' = showError msg_calculateFirst p
  /\ errorMessage_visible p' = true
  /\ errorMessage_text p' = msg_calculateFirst
  /\ comparisonMortgages p' = comparisonMortgages p.
Proof.
  intro H. cbn zeta.
  rewrite (addToComparison_without_inputs pow_nonint now _
             (run_keeps_no_inputs pow_nonint evs initial_page H eq_refl)).
  repeat split.
Qed.

Lemma addToComparison_before_calculation_witness :
  comparisonMortgages
    (addToComparison pow_unreached 1000
       (run pow_unreached
          [ClickCalculate (num (-1)) (num 100000) (num 30) (num 0); ClickRemove 3]
          initial_page))
  = comparisonMortgages
      (run pow_unreached
         [ClickCalculate (num (-1)) (num 100000) (num 30) (num 0); ClickRemove 3]
         initial_page).
Proof.
  apply (addToComparison_before_calculation pow_unreached
           [ClickCalculate (num (-1)) (num 100000) (num 30) (num 0); ClickRemove 3]
           1000).
  repeat constructor. simpl. discriminate.
Defined.

(** ** C4: the ids of the entries *)

Section Ids.
Variable pow_nonint : Q -> Q -> number.

Lemma clock_readings_app (evs1 evs2 : list event) :
  clock_readings (evs1 ++ evs2) = clock_readings evs1 ++ clock_readings evs2.
Proof.
  induction evs1 as [|[r a d f|now|id] evs1 IH]; simpl; rewrite ?IH; reflexivity.
Qed.

Lemma assigned_ids_app (evs1 evs2 : list event) (p : page) :
  assigned_ids pow_nonint (evs1 ++ evs2) p
  = assigned_ids pow_nonint evs1 p
    ++ assigned_ids pow_nonint evs2 (run pow_nonint evs1 p).
Proof.
  revert p. induction evs1 as [|ev evs1 IH]; intro p; [reflexivity|].
  cbn [app assigned_ids run fold_left]. rewrite <- app_assoc. f_equal. apply IH.
Qed.

Lemma assigned_id_calculate
  (interestRate loanAmount loanDuration lotFees : number) (p : page) :
  assigned_id pow_nonint
    (ClickCalculate interestRate loanAmount loanDuration lotFees) p = [].
Proof.
  unfold assigned_id. cbn [step]. rewrite handleCalculate_list, skipn_all.
  reflexivity.
Qed.

Lemma assigned_id_remove (id : Z) (p : page) :
  assigned_id pow_nonint (ClickRemove id) p = [].
Proof.
  unfold assigned_id. cbn [step]. rewrite removeFromComparison_list.
  rewrite skipn_all2; [reflexivity|apply filter_length_le].
Qed.

Lemma assigned_id_add (now : Z) (p : page) :
  assigned_id pow_nonint (ClickAddToComparison now) p
  = match dataset_inputs p with
    | Some _ => [now]
    | None => []
    end.
Proof.
  unfold assigned_id. cbn [step]. destruct (dataset_inputs p) as [i|] eqn:E.
  - destruct (addToComparison_appends pow_nonint now p i E) as [e [-> [Hid _]]].
    rewrite skipn_app, skipn_all, Nat.sub_diag. cbn [skipn app map].
    rewrite Hid. reflexivity.
  - rewrite (addToComparison_without_inputs pow_nonint now p E).
    cbn [showError comparisonMortgages]. rewrite skipn_all. reflexivity.
Qed.

Lemma assigned_id_reading (ev : event) (p : page) (x : Z) :
  In x (assigned_id pow_nonint ev p) -> In x (clock_readings [ev]).
Proof.
  destruct ev as [r a d f|now|id].
  - rewrite assigned_id_calculate. contradiction.
  - rewrite assigned_id_add. cbn [clock_readings].
    destruct (dataset_inputs p); [exact (fun H => H)|contradiction].
  - rewrite assigned_id_remove. contradiction.
Qed.

Lemma assigned_ids_In (evs : list event) (p : page) (x : Z) :
  In x (assigned_ids pow_nonint evs p) -> In x (clock_readings evs).
Proof.
  revert p. induction evs as [|ev evs IH]; intros p H; [exact H|].
  cbn [assigned_ids] in H. apply in_app_or in H.
  change (ev :: evs) with ([ev] ++ evs). rewrite clock_readings_app.
  apply in_or_app. destruct H as [H|H].
  - left. eapply assigned_id_reading. exact H.
  - right. eapply IH. exact H.
Qed.

Lemma assigned_ids_NoDup (evs : list event) (p : page) :
  NoDup (clock_readings evs) -> NoDup (assigned_ids pow_nonint evs p).
Proof.
  revert p. induction evs as [|ev evs IH]; intros p H; [constructor|].
  cbn [assigned_ids].
  destruct ev as [r a d f|now|id]; cbn [clock_readings] in H.
  - rewrite assigned_id_calculate. apply IH. exact H.
  - rewrite assigned_id_add.
    inversion H as [|x l Hnot Hrest]; subst.
    destruct (dataset_inputs p); cbn [app]; [|apply IH; exact Hrest].
    constructor; [|apply IH; exact Hrest].
    intro Hin. apply Hnot. eapply assigned_ids_In. exact Hin.
  - rewrite assigned_id_remove. apply IH. exact H.
Qed.

Lemma NoDup_app_disjoint (l r : list Z) (x : Z) :
  NoDup (l ++ r) -> In x l -> ~ In x r.
Proof.
  induction l as [|y l IH]; cbn [app]; intros N Hin Hin'; [contradiction|].
  inversion N as [|z l' Hnot Hrest]; subst.
  destruct Hin as [->|Hin].
  - apply Hnot, in_or_app. right. exact Hin'.
  - exact (IH Hrest Hin Hin').
Qed.

Lemma ids_filter (id : Z) (l : list Entry.t) :
  map Entry.id (filter (fun entry => negb (Z.eqb (Entry.id entry) id)) l)
  = filter (fun x => negb (Z.eqb x id)) (map Entry.id l).
Proof.
  induction l as [|e l IH]; simpl; [reflexivity|].
  destruct (Z.eqb (Entry.id e) id); simpl; rewrite IH; reflexivity.
Qed.

Lemma NoDup_filter_app (f : Z -> bool) (l r : list Z) :
  NoDup (l ++ r) -> NoDup (filter f l ++ r).
Proof.
  induction l as [|x l IH]; simpl; intro H; [exact H|].
  inversion H as [|y l' Hnot Hrest]; subst.
  destruct (f x); [|apply IH; exact Hrest].
  simpl. constructor; [|apply IH; exact Hrest].
  intro Hin. apply Hnot. apply in_app_or in Hin. apply in_or_app.
  destruct Hin as [Hin|Hin]; [left|right; exact Hin].
  apply filter_In in Hin. apply Hin.
Qed.

(** The ids in the list stay distinct along a run whose clock readings are
    distinct from each other and from the ids already present. *)
Lemma run_ids_NoDup (evs : list event) (p : page) :
  NoDup (ids p ++ clock_readings evs) -> NoDup (ids (run pow_nonint evs p)).
Proof.
  revert p. induction evs as [|ev evs IH]; intros p H.
  - rewrite app_nil_r in H. exact H.
  - cbn [run fold_left]. apply IH.
    destruct ev as [r a d f|now|id]; cbn [step clock_readings] in *.
    + unfold ids. rewrite handleCalculate_list. exact H.
    + destruct (dataset_inputs p) as [i|] eqn:E.
      * destruct (addToComparison_appends pow_nonint now p i E)
          as [e [Ee [Hid _]]].
        unfold ids in *. rewrite Ee, map_app, <- app_assoc. cbn [map app].
        rewrite Hid. exact H.
      * rewrite (addToComparison_without_inputs pow_nonint now p E).
        apply NoDup_remove_1 in H. exact H.
    + unfold ids in *. rewrite removeFromComparison_list, ids_filter.
      apply NoDup_filter_app. exact H.
Qed.

(** An id in the list at the end of a run was in the list at its start or
    is one of the clock readings of the run. *)
Lemma ids_run_In (evs : list event) (p : page) (x : Z) :
  In x (ids (run pow_nonint evs p)) ->
  In x (ids p) \/ In x (clock_readings evs).
Proof.
  revert p. induction evs as [|ev evs IH]; intros p H; [left; exact H|].
  cbn [run fold_left] in H. apply IH in H.
  change (ev :: evs) with ([ev] ++ evs). rewrite clock_readings_app.
  destruct H as [H|H]; [|right; apply in_or_app; right; exact H].
  destruct ev as [r a d f|now|id]; cbn [step clock_readings app] in *.
  - left. unfold ids in *. rewrite handleCalculate_list in H. exact H.
  - destruct (dataset_inputs p) as [i|] eqn:E.
    + destruct (addToComparison_appends pow_nonint now p i E)
        as [e [Ee [Hid _]]].
      unfold ids in *. rewrite Ee, map_app in H. apply in_app_or in H.
      destruct H as [H|H]; [left; exact H|].
      right. left. cbn [map] in H. destruct H as [H|[]]. rewrite <- H, Hid.
      reflexivity.
    + rewrite (addToComparison_without_inputs pow_nonint now p E) in H.
      left. exact H.
  - left. unfold ids in *. rewrite removeFromComparison_list in H.
    apply in_map_iff in H. destruct H as [e [He Hin]].
    apply filter_In in Hin. apply in_map_iff. exists e.
    split; [exact He|apply Hin].
Qed.

Lemma ids_removeFromComparison (id : Z) (p : page) :
  ~ In id (ids (removeFromComparison id p)).
Proof.
  unfold ids. rewrite removeFromComparison_list. intro H.
  apply in_map_iff in H. destruct H as [e [He Hin]].
  apply filter_In in Hin. destruct Hin as [_ Hne].
  rewrite He, Z.eqb_refl in Hne. discriminate Hne.
Qed.

End Ids.

(** C4, as amended.  The id of an entry is the reading of the clock at the
    add that creates it: an add that finds stored inputs puts one entry at
    the end of the list, and the id of this entry is the reading.  For every
    run of calculate, add and remove clicks whose clock readings at the adds
    are pairwise distinct: the ids of the entries put into the list during
    the run are pairwise distinct; once an id that was assigned is removed,
    no entry put into the list afterwards bears it and no list afterwards
    holds it; and in every state the run goes through no two entries of the
    list share an id. *)
Theorem ids_unique_when_clock_readings_distinct (pow_nonint : Q -> Q -> number)
  (evs : list event) :
  NoDup (clock_readings evs) ->
  (forall evs1 now evs2,
      evs = evs1 ++ ClickAddToComparison now :: evs2 ->
      dataset_inputs (run pow_nonint evs1 initial_page) <> None ->
      exists e,
        comparisonMortgages
          (run pow_nonint (evs1 ++ [ClickAddToComparison now]) initial_page)
        = comparisonMortgages (run pow_nonint evs1 initial_page) ++ [e]
        /\ Entry.id e = now)
  /\ NoDup (assigned_ids pow_nonint evs initial_page)
  /\ (forall evs1 id evs2,
         evs = evs1 ++ ClickRemove id :: evs2 ->
         In id (assigned_ids pow_nonint evs1 initial_page) ->
         ~ In id (assigned_ids pow_nonint evs2
                    (run pow_nonint (evs1 ++ [ClickRemove id]) initial_page))
         /\ forall evs3 evs4,
             evs2 = evs3 ++ evs4 ->
             ~ In id (ids (run pow_nonint (evs1 ++ ClickRemove id :: evs3)
                             initial_page)))
  /\ (forall evs1 evs2,
         evs = evs1 ++ evs2 ->
         NoDup (ids (run pow_nonint evs1 initial_page))).
Proof.
  intro H. split; [|split; [|split]].
  - intros evs1 now evs2 _ Hi. rewrite run_app. cbn [run fold_left step].
    destruct (dataset_inputs (run pow_nonint evs1 initial_page)) as [i|] eqn:E;
      [|contradiction].
    destruct (addToComparison_appends pow_nonint now _ i E) as [e [Ee [Hid _]]].
    exists e. split; [exact Ee|exact Hid].
  - apply assigned_ids_NoDup. exact H.
  - intros evs1 id evs2 -> Hin.
    pose proof (assigned_ids_NoDup pow_nonint _ initial_page H) as N.
    rewrite assigned_ids_app in N. cbn [assigned_ids] in N.
    rewrite assigned_id_remove in N. cbn [app] in N. split.
    + rewrite run_app. exact (NoDup_app_disjoint _ _ id N Hin).
    + intros evs3 evs4 -> Hid.
      rewrite run_app in Hid. cbn [run fold_left step] in Hid.
      apply ids_run_In in Hid. destruct Hid as [Hid|Hid].
      * exact (ids_removeFromComparison id _ Hid).
      * apply assigned_ids_In in Hin.
        rewrite clock_readings_app in H. cbn [clock_readings] in H.
        rewrite clock_readings_app in H.
        apply (NoDup_app_disjoint _ _ id H Hin).
        apply in_or_app. left. exact Hid.
  - intros evs1 evs2 ->. apply run_ids_NoDup. cbn [ids initial_page map app comparisonMortgages].
    rewrite clock_readings_app in H. apply NoDup_app_remove_r in H. exact H.
Qed.

Lemma ids_unique_when_clock_readings_distinct_witness :
  NoDup
    (ids (run pow_unreached
            [ClickCalculate (num 0) (num 100000) (num 30) (num 0);
             ClickAddToComparison 1000;
             ClickAddToComparison 1001;
             ClickRemove 1000;
             ClickAddToComparison 1002]
            initial_page)).
Proof.
  apply (proj2 (proj2 (proj2
           (ids_unique_when_clock_readings_distinct pow_unreached
              [ClickCalculate (num 0) (num 100000) (num 30) (num 0);
               ClickAddToComparison 1000;
               ClickAddToComparison 1001;
               ClickRemove 1000;
               ClickAddToComparison 1002]
              ltac:(repeat constructor; simpl; intuition discriminate))))
         _ []).
  symmetry. apply app_nil_r.
Defined.

(** Two adds within the same millisecond give two entries with the same id,
    and an id that was removed is assigned again when the clock reads the
    same value once more. *)
Lemma same_clock_reading_same_id :
  ids (run pow_unreached
         [ClickCalculate (num 0) (num 100000) (num 30) (num 0);
          ClickAddToComparison 1000;
          ClickAddToComparison 1000]
         initial_page)
  = [1000; 1000]%Z
  /\ assigned_ids pow_unreached
       [ClickCalculate (num 0) (num 100000) (num 30) (num 0);
        ClickAddToComparison 1000;
        ClickRemove 1000;
        ClickAddToComparison 1000]
       initial_page
     = [1000; 1000]%Z
  /\ ~ NoDup [1000; 1000]%Z.
Proof.
  split; [|split]; try (vm_compute; reflexivity).
  intro N. inversion N as [|x l Hnot _]; subst. apply Hnot. left. reflexivity.
Qed.

(** * Further properties *)

(** ** [formatNumberWithCommas] and [parseFormattedNumber] *)

Lemma filter_filter_implied {A : Type} (f g : A -> bool) (l : list A) :
  (forall x, f x = true -> g x = true) -> filter g (filter f l) = filter f l.
Proof.
  intro H. induction l as [|x l IH]; simpl; [reflexivity|].
  destruct (f x) eqn:E; [|exact IH].
  simpl. rewrite (H x E), IH. reflexivity.
Qed.

Lemma numeric_not_comma (c : code_unit) :
  is_digit c || (c =? dot)%N = true -> negb (c =? comma)%N = true.
Proof.
  unfold is_digit, dot, comma. intro H.
  apply negb_true_iff, N.eqb_neq. intro E. subst c. discriminate H.
Qed.

Lemma join_split_dot (s : jsstring) : join_dot (split_dot s) = s.
Proof.
  induction s as [|c s IH]; [reflexivity|].
  cbn [split_dot]. destruct (split_dot s) as [part parts].
  unfold join_dot in *. cbn [fst snd] in *.
  destruct (c =? dot)%N eqn:E.
  - apply N.eqb_eq in E. subst c. cbn [fst snd flat_map app]. rewrite IH.
    reflexivity.
  - cbn [fst snd app]. rewrite IH. reflexivity.
Qed.

Lemma filter_insert_commas (f : code_unit -> bool) (prev : option code_unit)
  (s : jsstring) :
  f comma = false -> filter f (insert_commas prev s) = filter f s.
Proof.
  intro Hf. revert prev. induction s as [|c s IH]; intro prev; [reflexivity|].
  cbn [insert_commas]. rewrite filter_app.
  assert (E : filter f
                (if non_boundary prev (Some c) && thousands_ahead (c :: s)
                 then [comma] else []) = []).
  { destruct (non_boundary prev (Some c) && thousands_ahead (c :: s));
      [|reflexivity].
    cbn [filter]. rewrite Hf. reflexivity. }
  rewrite E. cbn [app filter]. rewrite IH. reflexivity.
Qed.

Lemma filter_formatNumberWithCommas (f : code_unit -> bool) (value : jsstring) :
  f comma = false ->
  filter f (formatNumberWithCommas value) = filter f (remove_non_numeric value).
Proof.
  intro Hf. unfold formatNumberWithCommas. cbv zeta.
  pose proof (join_split_dot (remove_non_numeric value)) as J.
  destruct (split_dot (remove_non_numeric value)) as [part parts].
  rewrite <- J. unfold join_dot. cbn [fst snd]. rewrite !filter_app.
  rewrite (filter_insert_commas f None _ Hf). reflexivity.
Qed.

(** X1.  Formatting changes nothing that is read afterwards: without its commas
    the formatted text is the digits and dots of the text typed, so
    [parseFormattedNumber] gives for the formatted text what [parseFloat]
    gives for these digits and dots. *)
Theorem parseFormattedNumber_formatNumberWithCommas (value : jsstring) :
  remove_commas (formatNumberWithCommas value) = remove_non_numeric value
  /\ forall parseFloat,
      parseFormattedNumber parseFloat (formatNumberWithCommas value)
      = parseFloat (remove_non_numeric value).
Proof.
  assert (E : remove_commas (formatNumberWithCommas value)
              = remove_non_numeric value).
  { unfold remove_commas.
    rewrite filter_formatNumberWithCommas by reflexivity.
    apply filter_filter_implied. exact numeric_not_comma. }
  split; [exact E|].
  intro parseFloat. unfold parseFormattedNumber. rewrite E. reflexivity.
Qed.

Lemma remove_non_numeric_formatted (value : jsstring) :
  remove_non_numeric (formatNumberWithCommas value) = remove_non_numeric value.
Proof.
  unfold remove_non_numeric at 1.
  rewrite filter_formatNumberWithCommas by reflexivity.
  apply filter_filter_implied. exact (fun x H => H).
Qed.

(** X2.  Formatting a text that is already formatted leaves it as it is. *)
Theorem formatNumberWithCommas_idempotent (value : jsstring) :
  formatNumberWithCommas (formatNumberWithCommas value)
  = formatNumberWithCommas value.
Proof.
  pose proof (remove_non_numeric_formatted value) as E.
  unfold formatNumberWithCommas at 1. cbv zeta. rewrite E. reflexivity.
Qed.

Lemma digit_is_word (c : code_unit) : is_digit c = true -> is_word c = true.
Proof. intro H. unfold is_word. rewrite H. reflexivity. Qed.

Lemma digit_not_dot (c : code_unit) : is_digit c = true -> (c =? dot)%N = false.
Proof.
  unfold is_digit, dot. intro H. apply N.eqb_neq. intro E. subst c.
  discriminate H.
Qed.

Lemma digit_run_digits (s : jsstring) :
  forallb is_digit s = true -> digit_run s = List.length s.
Proof.
  induction s as [|c s IH]; [reflexivity|].
  cbn [forallb digit_run List.length]. intro H.
  apply andb_true_iff in H. destruct H as [Hc Hs].
  rewrite Hc, (IH Hs). reflexivity.
Qed.

Lemma remove_non_numeric_digits (s : jsstring) :
  forallb is_digit s = true -> remove_non_numeric s = s.
Proof.
  induction s as [|c s IH]; [reflexivity|].
  cbn [forallb]. intro H. apply andb_true_iff in H. destruct H as [Hc Hs].
  unfold remove_non_numeric in *. cbn [filter]. rewrite Hc. cbn [orb].
  rewrite (IH Hs). reflexivity.
Qed.

Lemma split_dot_digits_app (ds s : jsstring) :
  forallb is_digit ds = true ->
  split_dot (ds ++ s) = (ds ++ fst (split_dot s), snd (split_dot s)).
Proof.
  induction ds as [|c ds IH]; cbn [forallb app]; intro H.
  - destruct (split_dot s); reflexivity.
  - apply andb_true_iff in H. destruct H as [Hc Hs].
    cbn [split_dot]. rewrite (IH Hs), (digit_not_dot c Hc). reflexivity.
Qed.

Lemma insert_commas_short (prev : option code_unit) (s : jsstring) :
  forallb is_digit s = true -> (List.length s < 3)%nat ->
  insert_commas prev s = s.
Proof.
  revert prev. induction s as [|c s IH]; intros prev H L; [reflexivity|].
  cbn [insert_commas].
  assert (T : thousands_ahead (c :: s) = false).
  { unfold thousands_ahead. rewrite (digit_run_digits _ H).
    cbn [List.length] in *.
    destruct s as [|c1 [|c2 s]]; cbn [List.length] in *;
      [reflexivity|reflexivity|lia]. }
  rewrite T, andb_false_r. cbn [app forallb List.length] in *.
  apply andb_true_iff in H. destruct H as [_ Hs].
  rewrite (IH (Some c) Hs); [reflexivity|lia].
Qed.

Lemma thousands_ahead_three_more (c : code_unit) (d1 d2 : jsstring) :
  forallb is_digit (c :: d1) = true -> forallb is_digit d2 = true ->
  List.length d2 = 3%nat ->
  thousands_ahead (c :: d1 ++ d2) = thousands_ahead (c :: d1).
Proof.
  intros H1 H2 L. unfold thousands_ahead.
  rewrite (digit_run_digits (c :: d1) H1).
  rewrite (digit_run_digits (c :: d1 ++ d2)).
  2:{ change (c :: d1 ++ d2) with ((c :: d1) ++ d2).
      rewrite forallb_app, H1, H2. reflexivity. }
  cbn [List.length]. rewrite length_app, L.
  replace (S (List.length d1 + 3)) with (S (List.length d1) + 1 * 3)%nat by lia.
  rewrite Nat.Div0.mod_add. reflexivity.
Qed.

Lemma insert_commas_cons (prev : option code_unit) (c : code_unit) (s : jsstring) :
  insert_commas prev (c :: s)
  = (if non_boundary prev (Some c) && thousands_ahead (c :: s)
     then [comma] else [])
    ++ c :: insert_commas (Some c) s.
Proof. reflexivity. Qed.

Lemma insert_commas_three_more (prev : option code_unit) (d1 d2 : jsstring) :
  forallb is_digit d1 = true -> forallb is_digit d2 = true ->
  List.length d2 = 3%nat ->
  (d1 = [] -> exists c, prev = Some c /\ is_word c = true) ->
  insert_commas prev (d1 ++ d2) = insert_commas prev d1 ++ comma :: d2.
Proof.
  revert prev. induction d1 as [|x d1 IH]; intros prev H1 H2 L Hprev.
  - destruct (Hprev eq_refl) as [c [-> Hc]].
    destruct d2 as [|a [|b [|c' [|? ?]]]]; try discriminate L.
    cbn [app]. rewrite insert_commas_cons. cbn [forallb] in H2.
    apply andb_true_iff in H2. destruct H2 as [Ha H2].
    assert (T : thousands_ahead [a; b; c'] = true).
    { unfold thousands_ahead. rewrite digit_run_digits; [reflexivity|].
      cbn [forallb]. rewrite Ha. exact H2. }
    unfold non_boundary. rewrite Hc, (digit_is_word a Ha), T.
    change (insert_commas (Some c) []) with (@nil code_unit).
    cbn [Bool.eqb andb app]. f_equal. f_equal.
    apply (insert_commas_short (Some a) [b; c'] H2). cbn. lia.
  - cbn [app]. rewrite !insert_commas_cons.
    rewrite (thousands_ahead_three_more x d1 d2 H1 H2 L).
    rewrite <- app_assoc. f_equal. cbn [app]. f_equal.
    cbn [forallb] in H1. apply andb_true_iff in H1. destruct H1 as [Hx H1].
    apply IH; try assumption.
    intros _. exists x. split; [reflexivity|apply digit_is_word, Hx].
Qed.

Lemma formatNumberWithCommas_digits (ds : jsstring) :
  forallb is_digit ds = true ->
  formatNumberWithCommas ds = insert_commas None ds.
Proof.
  intro H. unfold formatNumberWithCommas. cbv zeta.
  rewrite (remove_non_numeric_digits ds H).
  rewrite <- (app_nil_r ds) at 1 2. rewrite (split_dot_digits_app ds [] H).
  unfold join_dot. cbn [split_dot fst snd flat_map]. rewrite !app_nil_r.
  reflexivity.
Qed.

Lemma insert_commas_first_digit (c : code_unit) (s : jsstring) :
  is_digit c = true ->
  insert_commas None (c :: s) = c :: insert_commas (Some c) s.
Proof.
  intro H. rewrite insert_commas_cons. unfold non_boundary.
  rewrite (digit_is_word c H). reflexivity.
Qed.

(** X3.  The commas group the digits of the integer part by three from the
    right: up to three digits get no comma, three more digits at the end add
    one comma before them, and whatever follows the first dot gets none. *)
Theorem formatNumberWithCommas_groups_of_three :
  (forall ds,
      forallb is_digit ds = true -> (List.length ds <= 3)%nat ->
      formatNumberWithCommas ds = ds)
  /\ (forall d1 d2,
         forallb is_digit d1 = true -> forallb is_digit d2 = true ->
         d1 <> [] -> List.length d2 = 3%nat ->
         formatNumberWithCommas (d1 ++ d2)
         = formatNumberWithCommas d1 ++ comma :: d2)
  /\ (forall ds rest,
         forallb is_digit ds = true ->
         formatNumberWithCommas (ds ++ dot :: rest)
         = formatNumberWithCommas ds ++ dot :: remove_non_numeric rest).
Proof.
  split; [|split].
  - intros ds H L. rewrite (formatNumberWithCommas_digits ds H).
    destruct ds as [|c ds]; [reflexivity|].
    cbn [forallb List.length] in *. apply andb_true_iff in H.
    destruct H as [Hc Hs].
    rewrite (insert_commas_first_digit c ds Hc).
    rewrite (insert_commas_short (Some c) ds Hs); [reflexivity|lia].
  - intros d1 d2 H1 H2 Hne L.
    rewrite (formatNumberWithCommas_digits d1 H1).
    rewrite formatNumberWithCommas_digits
      by (rewrite forallb_app, H1, H2; reflexivity).
    apply insert_commas_three_more; try assumption.
    intro E. contradiction.
  - intros ds rest H.
    rewrite (formatNumberWithCommas_digits ds H).
    unfold formatNumberWithCommas. cbv zeta.
    unfold remove_non_numeric at 1 2. rewrite filter_app.
    fold (remove_non_numeric ds). rewrite (remove_non_numeric_digits ds H).
    cbn [filter]. replace (is_digit dot || (dot =? dot)%N) with true by reflexivity.
    fold (remove_non_numeric rest).
    rewrite (split_dot_digits_app ds _ H). cbn [split_dot].
    pose proof (join_split_dot (remove_non_numeric rest)) as J.
    destruct (split_dot (remove_non_numeric rest)) as [part parts].
    rewrite N.eqb_refl. unfold join_dot in *. cbn [fst snd flat_map] in *.
    rewrite app_nil_r, <- J. reflexivity.
Qed.

Lemma formatNumberWithCommas_groups_of_three_witness :
  formatNumberWithCommas (units "12"%string) = units "12"%string
  /\ formatNumberWithCommas (units "1234"%string ++ units "567"%string)
     = formatNumberWithCommas (units "1234"%string) ++ comma :: units "567"%string
  /\ formatNumberWithCommas (units "1234"%string ++ dot :: units "5x678"%string)
     = formatNumberWithCommas (units "1234"%string)
       ++ dot :: remove_non_numeric (units "5x678"%string).
Proof.
  split; [|split].
  - apply (proj1 formatNumberWithCommas_groups_of_three); [reflexivity|].
    cbn. lia.
  - apply (proj1 (proj2 formatNumberWithCommas_groups_of_three));
      [reflexivity|reflexivity|discriminate|reflexivity].
  - apply (proj2 (proj2 formatNumberWithCommas_groups_of_three)). reflexivity.
Defined.

(** ** [handleLoanAmountInput] *)

Lemma handleLoanAmountInput_value (input : Input.t) :
  Input.value (handleLoanAmountInput input)
  = formatNumberWithCommas (Input.value input).
Proof. reflexivity. Qed.

Lemma handleLoanAmountInput_selection (input : Input.t) :
  let len := Z.of_nat (List.length (formatNumberWithCommas (Input.value input))) in
  let newPosition :=
    (Input.selectionStart input
     + (len - Z.of_nat (List.length (Input.value input))))%Z in
  Input.selectionStart (handleLoanAmountInput input)
  = Z.min (newPosition mod 2 ^ 32) len
  /\ Input.selectionEnd (handleLoanAmountInput input)
     = Z.min (newPosition mod 2 ^ 32) len.
Proof.
  cbv zeta. unfold handleLoanAmountInput, setSelectionRange, set_value.
  cbn [Input.value Input.selectionStart Input.selectionEnd].
  split; [|reflexivity]. lia.
Qed.

(** X4.  The cursor keeps its distance from the end of the text: as many code
    units follow it after the formatting as before, whenever the formatted
    text is long enough for that (the text of a field is shorter than 2^32
    code units). *)
Theorem handleLoanAmountInput_keeps_distance_from_end (input : Input.t) :
  let oldLength := Z.of_nat (List.length (Input.value input)) in
  let output := handleLoanAmountInput input in
  let newLength := Z.of_nat (List.length (Input.value output)) in
  (0 <= Input.selectionStart input <= oldLength)%Z ->
  (oldLength - Input.selectionStart input <= newLength)%Z ->
  (newLength < 2 ^ 32)%Z ->
  Input.value output = formatNumberWithCommas (Input.value input)
  /\ Input.selectionEnd output = Input.selectionStart output
  /\ (newLength - Input.selectionStart output
      = oldLength - Input.selectionStart input)%Z.
Proof.
  cbv zeta. rewrite handleLoanAmountInput_value. intros Hc Hd Hl.
  destruct (handleLoanAmountInput_selection input) as [Es Ee].
  cbv zeta in Es, Ee. rewrite Es, Ee.
  split; [reflexivity|]. split; [reflexivity|].
  rewrite Z.mod_small by lia. lia.
Qed.

Lemma handleLoanAmountInput_keeps_distance_from_end_witness :
  Input.value (handleLoanAmountInput input_1234)
  = formatNumberWithCommas (Input.value input_1234)
  /\ Input.selectionEnd (handleLoanAmountInput input_1234)
     = Input.selectionStart (handleLoanAmountInput input_1234)
  /\ (Z.of_nat (List.length (Input.value (handleLoanAmountInput input_1234)))
      - Input.selectionStart (handleLoanAmountInput input_1234)
      = Z.of_nat (List.length (Input.value input_1234))
        - Input.selectionStart input_1234)%Z.
Proof.
  exact (handleLoanAmountInput_keeps_distance_from_end input_1234
           ltac:(vm_compute; split; discriminate)
           ltac:(vm_compute; discriminate)
           ltac:(vm_compute; reflexivity)).
Defined.

Lemma Input_eq (a b : Input.t) :
  Input.value a = Input.value b ->
  Input.selectionStart a = Input.selectionStart b ->
  Input.selectionEnd a = Input.selectionEnd b ->
  a = b.
Proof.
  destruct a, b. cbn. intros -> -> ->. reflexivity.
Qed.

(** X5.  Handling the input event once more changes nothing: neither the text
    nor the selection. *)
Theorem handleLoanAmountInput_idempotent (input : Input.t) :
  handleLoanAmountInput (handleLoanAmountInput input)
  = handleLoanAmountInput input.
Proof.
  assert (I : formatNumberWithCommas (formatNumberWithCommas (Input.value input))
              = formatNumberWithCommas (Input.value input)).
  { unfold formatNumberWithCommas at 1. cbv zeta.
    rewrite remove_non_numeric_formatted. reflexivity. }
  destruct (handleLoanAmountInput_selection input) as [Es Ee].
  destruct (handleLoanAmountInput_selection (handleLoanAmountInput input))
    as [Es' Ee'].
  cbv zeta in Es, Ee, Es', Ee'.
  rewrite handleLoanAmountInput_value, I in Es', Ee'.
  assert (B : (0 <= Input.selectionStart (handleLoanAmountInput input) < 2 ^ 32)%Z
              /\ (Input.selectionStart (handleLoanAmountInput input)
                  <= Z.of_nat (List.length
                                 (formatNumberWithCommas (Input.value input))))%Z).
  { rewrite Es.
    match goal with
    | |- context [(?x mod 2 ^ 32)%Z] =>
        pose proof (Z.mod_pos_bound x (2 ^ 32) ltac:(lia))
    end.
    lia. }
  rewrite Z.sub_diag, Z.add_0_r, Z.mod_small in Es', Ee' by lia.
  rewrite Z.min_l in Es', Ee' by lia.
  apply Input_eq.
  - rewrite !handleLoanAmountInput_value. exact I.
  - exact Es'.
  - rewrite Ee', Ee, <- Es. reflexivity.
Qed.

(** ** Reading the fields: [parseInt] and the empty fees *)

Lemma whitespace_not_digit (c : code_unit) :
  is_digit c = true -> is_whitespace c = false.
Proof.
  unfold is_digit. rewrite andb_true_iff, !N.leb_le. intros [H1 H2].
  destruct (is_whitespace c) eqn:E; [|reflexivity]. exfalso.
  unfold is_whitespace in E. cbn [existsb] in E.
  rewrite !orb_true_iff, andb_true_iff, !N.eqb_eq, !N.leb_le in E. lia.
Qed.

Lemma digits_prefix_stops (ds rest : jsstring) (c : code_unit) :
  forallb is_digit ds = true -> is_digit c = false ->
  digits_prefix (ds ++ c :: rest) = ds.
Proof.
  intros H Hc. induction ds as [|x ds IH]; cbn [app digits_prefix forallb] in *.
  - rewrite Hc. reflexivity.
  - apply andb_true_iff in H. destruct H as [Hx Hs].
    rewrite Hx, (IH Hs). reflexivity.
Qed.

Lemma digits_prefix_digits (ds : jsstring) :
  forallb is_digit ds = true -> digits_prefix ds = ds.
Proof.
  intro H. induction ds as [|x ds IH]; cbn [digits_prefix forallb] in *;
    [reflexivity|].
  apply andb_true_iff in H. destruct H as [Hx Hs].
  rewrite Hx, (IH Hs). reflexivity.
Qed.

Lemma parseInt_starts_with_digit (c : code_unit) (s : jsstring) :
  is_digit c = true ->
  parseInt (c :: s)
  = Number_of_integer (decimal_value (digits_prefix (c :: s))).
Proof.
  intro H. unfold parseInt. cbn [trim_start].
  rewrite (whitespace_not_digit c H).
  assert (E45 : (c =? 45)%N = false).
  { apply N.eqb_neq. intro E. subst c. discriminate H. }
  assert (E43 : (c =? 43)%N = false).
  { apply N.eqb_neq. intro E. subst c. discriminate H. }
  rewrite E45, E43. cbn [fst snd digits_prefix]. rewrite H.
  rewrite Z.mul_1_l. reflexivity.
Qed.

Lemma digits_prefix_all_digits (s : jsstring) :
  forallb is_digit (digits_prefix s) = true.
Proof.
  induction s as [|c s IH]; [reflexivity|].
  cbn [digits_prefix]. destruct (is_digit c) eqn:E; [|reflexivity].
  cbn [forallb]. rewrite E, IH. reflexivity.
Qed.

Lemma digits_prefix_length (s : jsstring) :
  (List.length (digits_prefix s) <= List.length s)%nat.
Proof.
  induction s as [|c s IH]; [apply le_n|].
  cbn [digits_prefix]. destruct (is_digit c); cbn [List.length]; lia.
Qed.

Lemma trim_start_length (s : jsstring) :
  (List.length (trim_start s) <= List.length s)%nat.
Proof.
  induction s as [|c s IH]; [apply le_n|].
  cbn [trim_start]. destruct (is_whitespace c); cbn [List.length] in *; lia.
Qed.

(** A string of k digits denotes an integer below 10^k. *)
Lemma decimal_value_bound (digits : jsstring) :
  forallb is_digit digits = true ->
  (0 <= decimal_value digits < 10 ^ Z.of_nat (List.length digits))%Z.
Proof.
  unfold decimal_value. intro H.
  assert (G : forall acc, (0 <= acc)%Z ->
            (0 <= fold_left (fun a c => 10 * a + (Z.of_N c - 48)) digits acc
             < (acc + 1) * 10 ^ Z.of_nat (List.length digits))%Z).
  { induction digits as [|c ds IH]; intros acc Hacc.
    - cbn [fold_left List.length]. change (10 ^ Z.of_nat 0)%Z with 1%Z. lia.
    - cbn [forallb] in H. apply andb_true_iff in H. destruct H as [Hc Hs].
      unfold is_digit in Hc. rewrite andb_true_iff, !N.leb_le in Hc.
      cbn [fold_left List.length]. rewrite Nat2Z.inj_succ, Z.pow_succ_r by lia.
      assert (Hstep : (0 <= 10 * acc + (Z.of_N c - 48))%Z) by lia.
      specialize (IH Hs _ Hstep).
      assert (Hpos : (0 < 10 ^ Z.of_nat (List.length ds))%Z)
        by (apply Z.pow_pos_nonneg; lia).
      split; [apply IH|].
      eapply Z.lt_le_trans; [apply IH|]. nia. }
  specialize (G 0%Z (Z.le_refl 0)). lia.
Qed.

Lemma Number_of_integer_in_range (z : Z) :
  (Z.abs z < overflow_threshold)%Z -> Number_of_integer z = num z.
Proof.
  intro H. unfold Number_of_integer.
  destruct (overflow_threshold <=? Z.abs z)%Z eqn:E; [|reflexivity].
  apply Z.leb_le in E. lia.
Qed.

Lemma below_overflow_threshold : (10 ^ 308 < overflow_threshold)%Z.
Proof. vm_compute. reflexivity. Qed.

(** A text of at most 308 code units is read as NaN or as the integer its
    digits denote. *)
Lemma parseInt_short (string : jsstring) :
  (List.length string <= 308)%nat ->
  parseInt string = NaN \/ exists z, parseInt string = num z.
Proof.
  intro L. unfold parseInt.
  pose proof (trim_start_length string) as LS.
  set (S := trim_start string) in *.
  set (sign_S :=
         match S with
         | c :: S' =>
             if (c =? 45)%N then ((-1)%Z, S')
             else if (c =? 43)%N then (1%Z, S')
             else (1%Z, S)
         | [] => (1%Z, [])
         end).
  assert (HS : (fst sign_S = 1 \/ fst sign_S = -1)%Z
               /\ (List.length (snd sign_S) <= 308)%nat).
  { unfold sign_S. destruct S as [|c S']; [split; [left; reflexivity|cbn; lia]|].
    cbn [List.length] in LS.
    destruct (c =? 45)%N; [split; [right; reflexivity|cbn [snd]; lia]|].
    destruct (c =? 43)%N; split; try (left; reflexivity);
      cbn [snd List.length]; lia. }
  destruct HS as [Hsign Hlen].
  pose proof (digits_prefix_all_digits (snd sign_S)) as D.
  pose proof (digits_prefix_length (snd sign_S)) as DL.
  destruct (digits_prefix (snd sign_S)) as [|d ds] eqn:E; [left; reflexivity|].
  right. exists (fst sign_S * decimal_value (d :: ds))%Z.
  apply Number_of_integer_in_range.
  pose proof (decimal_value_bound _ D) as B.
  assert (P : (10 ^ Z.of_nat (List.length (d :: ds)) <= 10 ^ 308)%Z).
  { apply Z.pow_le_mono_r; lia. }
  pose proof below_overflow_threshold. lia.
Qed.

(** X6.  What [parseInt] reads is never a fraction: it is NaN, a whole number
    or, when the digits go beyond the range of the doubles, an Infinity.  So
    on a duration read by [parseInt] the whole-number test of
    [validateInputs] rejects, of what the two tests before it let through,
    only plus Infinity; on a text of at most 308 code units it rejects
    nothing. *)
Theorem parseInt_whole_number (string : jsstring) :
  let loanDuration := parseInt string in
  (loanDuration = NaN \/ (exists s, loanDuration = Inf s)
   \/ exists z, loanDuration = num z)
  /\ isNaN loanDuration || (loanDuration <= num 0)%js
       || negb (Number_isInteger loanDuration)
     = isNaN loanDuration || (loanDuration <= num 0)%js
       || (loanDuration === Inf false)%js
  /\ ((List.length string <= 308)%nat ->
      isNaN loanDuration || (loanDuration <= num 0)%js
        || negb (Number_isInteger loanDuration)
      = isNaN loanDuration || (loanDuration <= num 0)%js).
Proof.
  cbv zeta.
  assert (I : forall z, Number_isInteger (num z) = true).
  { intro z. unfold num. cbn [Number_isInteger].
    apply (Qis_integer_inject_Z _ _ (Qeq_refl _)). }
  assert (C : parseInt string = NaN \/ (exists s, parseInt string = Inf s)
              \/ exists z, parseInt string = num z).
  { unfold parseInt. destruct (digits_prefix _); [left; reflexivity|].
    right. unfold Number_of_integer.
    destruct (overflow_threshold <=? _)%Z; [left|right]; eexists; reflexivity. }
  split; [exact C|]. split.
  - destruct C as [->|[[s ->]|[z ->]]]; [reflexivity|destruct s; reflexivity|].
    rewrite (I z). cbn [negb isNaN orb num_eq num]. reflexivity.
  - intro L. destruct (parseInt_short string L) as [->|[z ->]]; [reflexivity|].
    rewrite (I z). cbn [negb]. apply orb_false_r.
Qed.

Lemma parseInt_whole_number_witness :
  isNaN (parseInt (units "30"%string))
    || (parseInt (units "30"%string) <= num 0)%js
    || negb (Number_isInteger (parseInt (units "30"%string)))
  = isNaN (parseInt (units "30"%string))
    || (parseInt (units "30"%string) <= num 0)%js.
Proof.
  apply (proj2 (proj2 (parseInt_whole_number (units "30"%string)))).
  cbn. lia.
Defined.

(** X7.  A fraction typed in the duration field is dropped, not rejected: with
    digits followed by anything that does not start with a digit, the click
    on Calculate does what it does with the digits alone. *)
Theorem handleCalculate_click_truncates_duration
  (parseFloat : jsstring -> number) (pow_nonint : Q -> Q -> number)
  (interestRate loanAmount lotFees digits rest : jsstring) (c : code_unit)
  (p : page) :
  forallb is_digit digits = true -> digits <> [] -> is_digit c = false ->
  handleCalculate_click parseFloat pow_nonint
    {| Fields.interestRate := interestRate;
       Fields.loanAmount := loanAmount;
       Fields.loanDuration := digits ++ c :: rest;
       Fields.lotFees := lotFees |} p
  = handleCalculate_click parseFloat pow_nonint
      {| Fields.interestRate := interestRate;
         Fields.loanAmount := loanAmount;
         Fields.loanDuration := digits;
         Fields.lotFees := lotFees |} p.
Proof.
  intros H Hne Hc. unfold handleCalculate_click.
  cbn [Fields.interestRate Fields.loanAmount Fields.loanDuration Fields.lotFees].
  assert (E : parseInt (digits ++ c :: rest) = parseInt digits).
  { destruct digits as [|x ds]; [contradiction|].
    assert (Hx : is_digit x = true).
    { cbn [forallb] in H. apply andb_true_iff in H. apply H. }
    change ((x :: ds) ++ c :: rest) with (x :: (ds ++ c :: rest)).
    rewrite !(parseInt_starts_with_digit x _ Hx).
    change (x :: (ds ++ c :: rest)) with ((x :: ds) ++ c :: rest).
    rewrite (digits_prefix_stops _ rest c H Hc), (digits_prefix_digits _ H).
    reflexivity. }
  rewrite E. reflexivity.
Qed.

Lemma handleCalculate_click_truncates_duration_witness :
  handleCalculate_click (fun _ => num 5) pow_unreached
    {| Fields.interestRate := units "5"%string;
       Fields.loanAmount := units "100,000"%string;
       Fields.loanDuration := units "30"%string ++ dot :: units "5"%string;
       Fields.lotFees := [] |} initial_page
  = handleCalculate_click (fun _ => num 5) pow_unreached
      {| Fields.interestRate := units "5"%string;
         Fields.loanAmount := units "100,000"%string;
         Fields.loanDuration := units "30"%string;
         Fields.lotFees := [] |} initial_page.
Proof.
  apply handleCalculate_click_truncates_duration;
    [reflexivity|discriminate|reflexivity].
Defined.

Lemma trim_whitespace (s : jsstring) :
  forallb is_whitespace s = true -> trim s = [].
Proof.
  intro H. unfold trim.
  assert (E : trim_start s = []).
  { induction s as [|c s IH]; [reflexivity|].
    cbn [forallb trim_start] in *. apply andb_true_iff in H.
    destruct H as [Hc Hs]. rewrite Hc. exact (IH Hs). }
  rewrite E. reflexivity.
Qed.

(** X8.  A fees field that is empty or holds only white space counts as fees of
    zero: [parseFloat] is not asked for the fees, and the validation of the
    click cannot answer with the fees message. *)
Theorem handleCalculate_click_blank_fees
  (parseFloat : jsstring -> number) (pow_nonint : Q -> Q -> number)
  (fields : Fields.t) (p : page) :
  forallb is_whitespace (Fields.lotFees fields) = true ->
  let interestRate := parseFloat (Fields.interestRate fields) in
  let loanAmount := parseFormattedNumber parseFloat (Fields.loanAmount fields) in
  let loanDuration := parseInt (Fields.loanDuration fields) in
  handleCalculate_click parseFloat pow_nonint fields p
  = handleCalculate pow_nonint interestRate loanAmount loanDuration (num 0) p
  /\ validateInputs interestRate loanAmount loanDuration (num 0)
     <> Some msg_lotFees.
Proof.
  intro H. cbv zeta. split.
  - unfold handleCalculate_click. rewrite (trim_whitespace _ H). reflexivity.
  - unfold validateInputs.
    repeat match goal with
           | |- (if ?b then _ else _) <> _ => destruct b; [discriminate|]
           end.
    discriminate.
Qed.

Lemma handleCalculate_click_blank_fees_witness :
  handleCalculate_click (fun _ => num 5) pow_unreached
    {| Fields.interestRate := units "5"%string;
       Fields.loanAmount := units "100,000"%string;
       Fields.loanDuration := units "30"%string;
       Fields.lotFees := units "  "%string |} initial_page
  = handleCalculate pow_unreached (num 5) (num 5) (num 30) (num 0) initial_page.
Proof.
  exact (proj1 (handleCalculate_click_blank_fees (fun _ => num 5) pow_unreached
                  {| Fields.interestRate := units "5"%string;
                     Fields.loanAmount := units "100,000"%string;
                     Fields.loanDuration := units "30"%string;
                     Fields.lotFees := units "  "%string |} initial_page
                  eq_refl)).
Defined.

(** ** What every run of the page keeps *)

Section Invariants.
Variable pow_nonint : Q -> Q -> number.

Lemma run_snoc (evs : list event) (ev : event) (p : page) :
  run pow_nonint (evs ++ [ev]) p = step pow_nonint (run pow_nonint evs p) ev.
Proof. rewrite run_app. reflexivity. Qed.

Lemma run_invariant (Inv : page -> Prop) :
  (forall p ev, Inv p -> Inv (step pow_nonint p ev)) ->
  forall evs p, Inv p -> Inv (run pow_nonint evs p).
Proof.
  intros Hstep evs. induction evs as [|ev evs IH]; intros p Hp; [exact Hp|].
  cbn [run fold_left]. apply IH, Hstep, Hp.
Qed.

Lemma step_not_both_visible (p : page) (ev : event) :
  errorMessage_visible p && results_visible p = false ->
  errorMessage_visible (step pow_nonint p ev)
  && results_visible (step pow_nonint p ev) = false.
Proof.
  intro H. destruct ev as [r a d f|now|id]; cbn [step].
  - unfold handleCalculate. destruct (validateInputs r a d f); reflexivity.
  - unfold addToComparison. destruct (dataset_inputs p); reflexivity.
  - exact H.
Qed.

Lemma step_table_shows_list (p : page) (ev : event) :
  table_shows_list p -> table_shows_list (step pow_nonint p ev).
Proof.
  intros [Hv Ht]. destruct ev as [r a d f|now|id]; cbn [step].
  - unfold handleCalculate. destruct (validateInputs r a d f);
      split; assumption.
  - unfold addToComparison. destruct (dataset_inputs p) as [i|];
      [|split; assumption].
    unfold table_shows_list.
    cbn [hideError updateComparisonDisplay set_comparisonMortgages
         comparisonMortgages comparisonSection_visible comparisonTableBody].
    split; [reflexivity|]. intros _.
    destruct (comparisonMortgages p); reflexivity.
  - unfold removeFromComparison, table_shows_list.
    cbn [updateComparisonDisplay set_comparisonMortgages
         comparisonMortgages comparisonSection_visible comparisonTableBody].
    split; [reflexivity|].
    destruct (filter _ (comparisonMortgages p)); [contradiction|reflexivity].
Qed.

End Invariants.

(** X9.  The error message and the results are never shown together, whatever
    is clicked. *)
Theorem error_and_results_never_both_visible (pow_nonint : Q -> Q -> number)
  (evs : list event) :
  let p := run pow_nonint evs initial_page in
  errorMessage_visible p && results_visible p = false.
Proof.
  cbv zeta.
  apply (run_invariant pow_nonint
           (fun p => errorMessage_visible p && results_visible p = false)).
  - apply step_not_both_visible.
  - reflexivity.
Qed.

(** X10.  After every run the comparison section shows the list: it is visible
    exactly when the list holds an entry, and its rows are then the entries
    of the list, in their order. *)
Theorem comparison_table_shows_list (pow_nonint : Q -> Q -> number)
  (evs : list event) :
  table_shows_list (run pow_nonint evs initial_page).
Proof.
  apply (run_invariant pow_nonint table_shows_list).
  - apply step_table_shows_list.
  - split; [reflexivity|]. intro H. contradiction.
Qed.

(** ** The entries of the list *)

Lemma roundtrip_checked (interestRate loanAmount loanDuration lotFees : number) :
  validateInputs interestRate loanAmount loanDuration lotFees = None ->
  inputs_checked
    (Inputs.roundtrip
       {| Inputs.interestRate := interestRate;
          Inputs.loanAmount := loanAmount;
          Inputs.loanDuration := loanDuration;
          Inputs.lotFees := lotFees |}).
Proof.
  intro V.
  destruct (validateInputs_None_inv _ _ _ _ V)
    as [[a [-> Ha]] [HP [[q [y [-> [Hq Hy]]]] HF]]].
  unfold inputs_checked, Inputs.roundtrip.
  cbn [Inputs.interestRate Inputs.loanAmount Inputs.loanDuration Inputs.lotFees
       Inputs.p_interestRate Inputs.p_loanAmount Inputs.p_loanDuration
       Inputs.p_lotFees JSON_roundtrip].
  split; [exists a; split; [reflexivity|exact Ha]|].
  split.
  { destruct HP as [->|[p [-> Hp]]]; [left; reflexivity|].
    right. exists p. split; [reflexivity|exact Hp]. }
  split; [exists q, y; repeat split; assumption|].
  destruct HF as [->|[f [-> Hf]]]; [left; reflexivity|].
  right. exists f. split; [reflexivity|exact Hf].
Qed.

Section Entries.
Variable pow_nonint : Q -> Q -> number.

Lemma addToComparison_entry_good (now : Z) (p : page) (i : Inputs.parsed) :
  dataset_inputs p = Some i -> inputs_checked i ->
  exists e,
    comparisonMortgages (addToComparison pow_nonint now p)
    = comparisonMortgages p ++ [e]
    /\ entry_good pow_nonint e.
Proof.
  intros Hi [Ha [HP [Hd HF]]].
  destruct (addToComparison_appends pow_nonint now p i Hi)
    as [e [E [_ [E1 [E2 [E3 [E4 C]]]]]]].
  exists e. split; [exact E|].
  assert (K : entry_checked e).
  { unfold entry_checked. rewrite E1, E2, E3, E4.
    split; [exact Ha|]. split; [exact HP|]. split; [exact Hd|].
    destruct HF as [->|[f [-> Hf]]].
    - exists 0. split; [reflexivity|discriminate].
    - cbn [or_zero]. destruct (Qeq_bool f 0).
      + exists 0. split; [reflexivity|discriminate].
      + exists f. split; [reflexivity|exact Hf]. }
  split; [exact K|exact C].
Qed.

Lemma step_page_good (p : page) (ev : event) :
  page_good pow_nonint p -> page_good pow_nonint (step pow_nonint p ev).
Proof.
  intros [Hi Hl]. destruct ev as [r a d f|now|id]; cbn [step].
  - unfold handleCalculate. destruct (validateInputs r a d f) eqn:V.
    + split; assumption.
    + split; [|exact Hl].
      cbn [displayResults dataset_inputs hideError]. intros i E.
      injection E as <-. apply roundtrip_checked, V.
  - assert (Hd : dataset_inputs (addToComparison pow_nonint now p)
                 = dataset_inputs p).
    { unfold addToComparison.
      destruct (dataset_inputs p) eqn:E; rewrite <- E; reflexivity. }
    split; [intros i0 E0; rewrite Hd in E0; exact (Hi i0 E0)|].
    destruct (dataset_inputs p) as [i|] eqn:E.
    + destruct (addToComparison_entry_good now p i E (Hi i eq_refl))
        as [e [El Hg]].
      rewrite El. apply Forall_app. split; [exact Hl|].
      constructor; [exact Hg|constructor].
    + rewrite (addToComparison_without_inputs pow_nonint now p E). exact Hl.
  - split; [exact Hi|].
    rewrite removeFromComparison_list. apply Forall_forall.
    intros e He. apply filter_In in He. destruct He as [He _].
    exact (proj1 (Forall_forall _ _) Hl e He).
Qed.

End Entries.

(** X11.  Every entry the list ever holds was computed from inputs that passed
    the validation: its rate is a finite number between 0 and 100, its
    duration a positive whole number, its principal a finite number above
    zero or [null], its fees finite and not negative; and its three amounts
    are what the engine returns for these stored inputs, with the stored
    fees applied. *)
Theorem entries_checked_consistent (pow_nonint : Q -> Q -> number)
  (evs : list event) (e : Entry.t) :
  In e (comparisonMortgages (run pow_nonint evs initial_page)) ->
  entry_checked e /\ entry_consistent pow_nonint e.
Proof.
  intro H.
  assert (G : page_good pow_nonint (run pow_nonint evs initial_page)).
  { apply (run_invariant pow_nonint (page_good pow_nonint)).
    - apply step_page_good.
    - split; [discriminate|constructor]. }
  exact (proj1 (Forall_forall _ _) (proj2 G) e H).
Qed.

Lemma entries_checked_consistent_witness :
  exists e,
    In e (comparisonMortgages (run pow_unreached calculate_then_add initial_page))
    /\ entry_checked e /\ entry_consistent pow_unreached e.
Proof.
  assert (H : exists e,
             In e (comparisonMortgages
                     (run pow_unreached calculate_then_add initial_page))).
  { eexists. left. reflexivity. }
  destruct H as [e He]. exists e. split; [exact He|].
  exact (entries_checked_consistent pow_unreached calculate_then_add e He).
Defined.

(** ** Calculate, then add *)

Section CalculateThenAdd.
Variable pow_nonint : Q -> Q -> number.

Lemma handleCalculate_accepted
  (interestRate loanAmount loanDuration lotFees : number) (p : page) :
  validateInputs interestRate loanAmount loanDuration lotFees = None ->
  let p1 := handleCalculate pow_nonint interestRate loanAmount loanDuration lotFees p in
  dataset_inputs p1
  = Some (Inputs.roundtrip
            {| Inputs.interestRate := interestRate;
               Inputs.loanAmount := loanAmount;
               Inputs.loanDuration := loanDuration;
               Inputs.lotFees := lotFees |})
  /\ comparisonMortgages p1 = comparisonMortgages p
  /\ results_shown p1
     = Some (applyFees_spec
               (calculateMortgage pow_nonint loanAmount interestRate loanDuration)
               lotFees (loanDuration * num 12)%js).
Proof.
  intro V. cbv zeta. unfold handleCalculate. rewrite V.
  repeat split.
Qed.

Lemma handleCalculate_rejected
  (interestRate loanAmount loanDuration lotFees : number) (p : page) :
  validateInputs interestRate loanAmount loanDuration lotFees <> None ->
  let p1 := handleCalculate pow_nonint interestRate loanAmount loanDuration lotFees p in
  dataset_inputs p1 = dataset_inputs p
  /\ comparisonMortgages p1 = comparisonMortgages p.
Proof.
  intro V. cbv zeta. unfold handleCalculate.
  destruct (validateInputs interestRate loanAmount loanDuration lotFees);
    [split; reflexivity|contradiction].
Qed.

End CalculateThenAdd.

(** X12.  Adding right after a calculation on finite inputs stores what is
    displayed: the three amounts of the new entry are the three amounts
    shown, the inputs having gone through JSON unchanged. *)
Theorem add_after_calculate_stores_displayed (pow_nonint : Q -> Q -> number)
  (interestRate loanAmount loanDuration lotFees : number) (now : Z) (p : page) :
  validateInputs interestRate loanAmount loanDuration lotFees = None ->
  is_finite loanAmount = true ->
  is_finite lotFees = true ->
  let p1 := handleCalculate pow_nonint interestRate loanAmount loanDuration lotFees p in
  exists e,
    comparisonMortgages (addToComparison pow_nonint now p1)
    = comparisonMortgages p ++ [e]
    /\ results_shown p1 = Some (entry_result e)
    /\ Entry.interestRate e = JNum interestRate
    /\ Entry.loanAmount e = JNum loanAmount
    /\ Entry.loanDuration e = JNum loanDuration.
Proof.
  intros V Hp Hf. cbv zeta.
  destruct (handleCalculate_accepted pow_nonint _ _ _ _ p V) as [Ed [El Er]].
  cbv zeta in Ed, El, Er.
  destruct (addToComparison_appends pow_nonint now _ _ Ed)
    as [e [E [_ [E1 [E2 [E3 [E4 C]]]]]]].
  exists e. rewrite E, El. split; [reflexivity|].
  destruct (validateInputs_None_inv _ _ _ _ V)
    as [[a [-> _]] [_ [[q [y [-> _]]] HF]]].
  destruct loanAmount as [| |pr]; try discriminate Hp.
  destruct HF as [->|[f [-> Hf0]]]; [discriminate Hf|].
  cbn [Inputs.roundtrip Inputs.p_interestRate Inputs.p_loanAmount
       Inputs.p_loanDuration Inputs.p_lotFees Inputs.interestRate
       Inputs.loanAmount Inputs.loanDuration Inputs.lotFees JSON_roundtrip]
    in E1, E2, E3, E4.
  repeat split; try assumption.
  rewrite Er. f_equal. unfold entry_consistent in C. rewrite C.
  rewrite E1, E2, E3, E4. cbn [ToNumber]. unfold applyFees_spec.
  rewrite (or_zero_nonneg _ (Fin f)); [reflexivity|].
  apply Qle_bool_iff. exact Hf0.
Qed.

Lemma add_after_calculate_stores_displayed_witness :
  exists e,
    comparisonMortgages (addToComparison pow_unreached 1000 page_after_calculate)
    = comparisonMortgages initial_page ++ [e]
    /\ results_shown page_after_calculate = Some (entry_result e).
Proof.
  destruct (add_after_calculate_stores_displayed pow_unreached
              (num 0) (num 100000) (num 30) (num 50) 1000 initial_page
              eq_refl eq_refl eq_refl) as [e [E [R _]]].
  exists e. split; [exact E|exact R].
Defined.

(** X13.  An infinite principal, which the validation accepts, does not
    survive the storing: the result displayed is computed from Infinity,
    while the entry added next has [null] as its principal, the rate and the
    duration that were entered, and amounts that the engine computes from a
    principal of zero. *)
Theorem add_after_infinite_principal (pow_nonint : Q -> Q -> number)
  (interestRate loanDuration lotFees : number) (now : Z) (p : page) :
  validateInputs interestRate (Inf false) loanDuration lotFees = None ->
  let p1 := handleCalculate pow_nonint interestRate (Inf false) loanDuration lotFees p in
  results_shown p1
  = Some (applyFees_spec
            (calculateMortgage pow_nonint (Inf false) interestRate loanDuration)
            lotFees (loanDuration * num 12)%js)
  /\ exists e,
      comparisonMortgages (addToComparison pow_nonint now p1)
      = comparisonMortgages p ++ [e]
      /\ Entry.loanAmount e = JNull
      /\ Entry.interestRate e = JNum interestRate
      /\ Entry.loanDuration e = JNum loanDuration
      /\ entry_result e
         = applyFees_spec
             (calculateMortgage pow_nonint (num 0) interestRate loanDuration)
             (Entry.lotFees e) (loanDuration * num 12)%js.
Proof.
  intro V. cbv zeta.
  destruct (handleCalculate_accepted pow_nonint _ _ _ _ p V) as [Ed [El Er]].
  cbv zeta in Ed, El, Er. split; [exact Er|].
  destruct (addToComparison_appends pow_nonint now _ _ Ed)
    as [e [E [_ [E1 [E2 [E3 [_ C]]]]]]].
  destruct (validateInputs_None_inv _ _ _ _ V)
    as [[a [-> _]] [_ [[q [y [-> _]]] _]]].
  cbn [Inputs.roundtrip Inputs.p_interestRate Inputs.p_loanAmount
       Inputs.p_loanDuration Inputs.interestRate Inputs.loanAmount
       Inputs.loanDuration JSON_roundtrip] in E1, E2, E3.
  exists e. rewrite E, El. split; [reflexivity|].
  split; [exact E2|]. split; [exact E1|]. split; [exact E3|].
  unfold entry_consistent in C. rewrite E1, E2, E3 in C. exact C.
Qed.

Lemma add_after_infinite_principal_witness :
  exists e,
    comparisonMortgages
      (addToComparison pow_unreached 1000
         (handleCalculate pow_unreached (num 0) (Inf false) (num 30) (num 0)
            initial_page))
    = comparisonMortgages initial_page ++ [e]
    /\ Entry.loanAmount e = JNull
    /\ Entry.interestRate e = JNum (num 0)
    /\ Entry.loanDuration e = JNum (num 30)
    /\ entry_result e
       = applyFees_spec
           (calculateMortgage pow_unreached (num 0) (num 0) (num 30))
           (Entry.lotFees e) (num 30 * num 12)%js.
Proof.
  exact (proj2 (add_after_infinite_principal pow_unreached
                  (num 0) (num 30) (num 0) 1000 initial_page eq_refl)).
Defined.

(** X14.  A calculation that is rejected leaves the stored inputs as they were:
    adding after it appends what adding before it would have appended, the
    entry of the last calculation that was accepted. *)
Theorem add_after_rejected_calculation (pow_nonint : Q -> Q -> number)
  (interestRate loanAmount loanDuration lotFees : number) (now : Z) (p : page) :
  validateInputs interestRate loanAmount loanDuration lotFees <> None ->
  let p1 := handleCalculate pow_nonint interestRate loanAmount loanDuration lotFees p in
  dataset_inputs p1 = dataset_inputs p
  /\ comparisonMortgages (addToComparison pow_nonint now p1)
     = comparisonMortgages (addToComparison pow_nonint now p).
Proof.
  intro V. cbv zeta.
  destruct (handleCalculate_rejected pow_nonint _ _ _ _ p V) as [Ed El].
  cbv zeta in Ed, El. split; [exact Ed|].
  unfold addToComparison. rewrite Ed.
  destruct (dataset_inputs p).
  - cbn [comparisonMortgages hideError updateComparisonDisplay
         set_comparisonMortgages]. rewrite El. reflexivity.
  - cbn [comparisonMortgages showError]. exact El.
Qed.

Lemma add_after_rejected_calculation_witness :
  comparisonMortgages
    (addToComparison pow_unreached 1000
       (handleCalculate pow_unreached (num (-1)) (num 1) (num 1) (num 0)
          page_after_calculate))
  = comparisonMortgages (addToComparison pow_unreached 1000 page_after_calculate).
Proof.
  apply (add_after_rejected_calculation pow_unreached
           (num (-1)) (num 1) (num 1) (num 0) 1000 page_after_calculate).
  discriminate.
Defined.

(** ** Add and remove together *)

Lemma filter_app_one {A : Type} (f : A -> bool) (l : list A) (x : A) :
  filter f (l ++ [x]) = filter f l ++ (if f x then [x] else []).
Proof. rewrite filter_app. reflexivity. Qed.

(** X15.  Removing the entry just added gives back the list as it was, when the
    id it got was borne by no entry before. *)
Theorem remove_after_add (pow_nonint : Q -> Q -> number) (now : Z) (p : page) :
  ~ In now (ids p) ->
  comparisonMortgages
    (removeFromComparison now (addToComparison pow_nonint now p))
  = comparisonMortgages p.
Proof.
  intro H. rewrite removeFromComparison_list.
  assert (K : filter (fun entry => negb (Z.eqb (Entry.id entry) now))
                (comparisonMortgages p) = comparisonMortgages p).
  { apply filter_all. intros e He. apply negb_true_iff, Z.eqb_neq.
    intro E. apply H. rewrite <- E. apply in_map. exact He. }
  destruct (dataset_inputs p) as [i|] eqn:Ei.
  - destruct (addToComparison_appends pow_nonint now p i Ei)
      as [e [-> [Hid _]]].
    rewrite filter_app_one, K, Hid, Z.eqb_refl. apply app_nil_r.
  - rewrite (addToComparison_without_inputs pow_nonint now p Ei). exact K.
Qed.

Lemma remove_after_add_witness :
  comparisonMortgages
    (removeFromComparison 1000
       (addToComparison pow_unreached 1000 page_after_calculate))
  = comparisonMortgages page_after_calculate.
Proof.
  apply (remove_after_add pow_unreached 1000 page_after_calculate).
  intros [].
Defined.

(** X16.  Removing another id and adding do not disturb each other: the list is
    the same whichever comes first.  So after two adds, removing the first
    id leaves the second entry. *)
Theorem remove_commutes_with_add (pow_nonint : Q -> Q -> number)
  (id now : Z) (p : page) :
  id <> now ->
  comparisonMortgages
    (removeFromComparison id (addToComparison pow_nonint now p))
  = comparisonMortgages
      (addToComparison pow_nonint now (removeFromComparison id p)).
Proof.
  intro H. rewrite removeFromComparison_list. unfold addToComparison.
  assert (Ed : dataset_inputs (removeFromComparison id p) = dataset_inputs p)
    by reflexivity.
  rewrite Ed. destruct (dataset_inputs p) as [i|].
  - cbn [comparisonMortgages hideError updateComparisonDisplay
         set_comparisonMortgages showError removeFromComparison].
    rewrite filter_app_one. cbn [Entry.id].
    replace (Z.eqb now id) with false
      by (symmetry; apply Z.eqb_neq; intro E; apply H; symmetry; exact E).
    reflexivity.
  - reflexivity.
Qed.

Lemma remove_commutes_with_add_witness :
  comparisonMortgages
    (removeFromComparison 1000
       (addToComparison pow_unreached 1001
          (addToComparison pow_unreached 1000 page_after_calculate)))
  = comparisonMortgages
      (addToComparison pow_unreached 1001
         (removeFromComparison 1000
            (addToComparison pow_unreached 1000 page_after_calculate))).
Proof.
  apply remove_commutes_with_add. discriminate.
Defined.

Lemma page_eq (a b : page) :
  comparisonMortgages a = comparisonMortgages b ->
  dataset_inputs a = dataset_inputs b ->
  errorMessage_text a = errorMessage_text b ->
  errorMessage_visible a = errorMessage_visible b ->
  results_visible a = results_visible b ->
  results_shown a = results_shown b ->
  lotFeesNote a = lotFeesNote b ->
  comparisonSection_visible a = comparisonSection_visible b ->
  comparisonTableBody a = comparisonTableBody b ->
  a = b.
Proof.
  destruct a, b. cbn. intros. subst. reflexivity.
Qed.

Lemma filter_twice {A : Type} (f : A -> bool) (l : list A) :
  filter f (filter f l) = filter f l.
Proof. apply filter_filter_implied. exact (fun x H => H). Qed.

(** X17.  Removing the same id a second time changes nothing on the page. *)
Theorem removeFromComparison_idempotent (id : Z) (p : page) :
  removeFromComparison id (removeFromComparison id p)
  = removeFromComparison id p.
Proof.
  apply page_eq; try reflexivity.
  - rewrite !removeFromComparison_list. apply filter_twice.
  - unfold removeFromComparison.
    cbn [updateComparisonDisplay set_comparisonMortgages comparisonMortgages
         comparisonSection_visible]. rewrite filter_twice. reflexivity.
  - unfold removeFromComparison.
    cbn [updateComparisonDisplay set_comparisonMortgages comparisonMortgages
         comparisonTableBody]. rewrite filter_twice.
    destruct (filter _ (comparisonMortgages p)); reflexivity.
Qed.

(** X18.  When the ids of the list are distinct, removing an id that is present
    deletes exactly one entry. *)
Theorem removeFromComparison_deletes_one (id : Z) (p : page) :
  NoDup (ids p) -> In id (ids p) ->
  S (List.length (comparisonMortgages (removeFromComparison id p)))
  = List.length (comparisonMortgages p).
Proof.
  rewrite removeFromComparison_list. unfold ids.
  induction (comparisonMortgages p) as [|e l IH]; cbn [map]; intros N H;
    [contradiction|].
  inversion N as [|x l' Hnot Hrest]; subst.
  cbn [filter List.length]. destruct (Z.eqb (Entry.id e) id) eqn:E.
  - apply Z.eqb_eq in E. cbn [negb]. f_equal.
    f_equal. apply filter_all. intros e' He'.
    apply negb_true_iff, Z.eqb_neq. intro E'. apply Hnot.
    rewrite E, <- E'. apply in_map. exact He'.
  - apply Z.eqb_neq in E. cbn [negb List.length]. f_equal.
    apply IH; [exact Hrest|].
    destruct H as [H|H]; [contradiction|exact H].
Qed.

Lemma removeFromComparison_deletes_one_witness :
  S (List.length
       (comparisonMortgages (removeFromComparison 2 (page_with_ids [1; 2; 3]%Z))))
  = List.length (comparisonMortgages (page_with_ids [1; 2; 3]%Z)).
Proof.
  apply (removeFromComparison_deletes_one 2 (page_with_ids [1; 2; 3]%Z)).
  - repeat constructor; simpl; intuition discriminate.
  - right. left. reflexivity.
Defined.

(** ** Fields that are not numbers *)

(** X20.  A field that [parseFloat] or [parseInt] could not read is always
    rejected: with NaN among the four values the validation answers with a
    message. *)
Theorem validateInputs_rejects_NaN
  (interestRate loanAmount loanDuration lotFees : number) :
  isNaN interestRate || isNaN loanAmount || isNaN loanDuration || isNaN lotFees
  = true ->
  validateInputs interestRate loanAmount loanDuration lotFees <> None.
Proof.
  intros H V.
  destruct (validateInputs_None_inv _ _ _ _ V)
    as [[a [-> _]] [HP [[q [y [-> _]]] HF]]].
  destruct HP as [->|[p [-> _]]]; destruct HF as [->|[f [-> _]]];
    discriminate H.
Qed.

Lemma validateInputs_rejects_NaN_witness :
  validateInputs (num 5) (num 100000) NaN (num 0) <> None.
Proof.
  apply validateInputs_rejects_NaN. reflexivity.
Defined.

(** ** The rows after the last removal *)

(** X21.  Removing the id that every entry of the list bears empties the list and
    hides the comparison section, and leaves the rows of the table as they
    were: they are not cleared. *)
Theorem removeFromComparison_last_keeps_rows (id : Z) (p : page) :
  (forall e, In e (comparisonMortgages p) -> Entry.id e = id) ->
  let p' := removeFromComparison id p in
  comparisonMortgages p' = []
  /\ comparisonSection_visible p' = false
  /\ comparisonTableBody p' = comparisonTableBody p.
Proof.
  intro H. cbv zeta.
  assert (E : filter (fun entry => negb (Z.eqb (Entry.id entry) id))
                (comparisonMortgages p) = []).
  { induction (comparisonMortgages p) as [|e l IH]; [reflexivity|].
    cbn [filter]. rewrite (H e (or_introl eq_refl)), Z.eqb_refl. cbn [negb].
    apply IH. intros e' He'. apply H. right. exact He'. }
  unfold removeFromComparison.
  cbn [updateComparisonDisplay set_comparisonMortgages comparisonMortgages
       comparisonSection_visible comparisonTableBody].
  rewrite E. repeat split.
Qed.

Lemma removeFromComparison_last_keeps_rows_witness :
  comparisonMortgages
    (removeFromComparison 1000
       (addToComparison pow_unreached 1000 page_after_calculate)) = []
  /\ comparisonSection_visible
       (removeFromComparison 1000
          (addToComparison pow_unreached 1000 page_after_calculate)) = false
  /\ comparisonTableBody
       (removeFromComparison 1000
          (addToComparison pow_unreached 1000 page_after_calculate))
     = comparisonTableBody
         (addToComparison pow_unreached 1000 page_after_calculate).
Proof.
  apply (removeFromComparison_last_keeps_rows 1000
           (addToComparison pow_unreached 1000 page_after_calculate)).
  intros e [<-|[]]. reflexivity.
Defined.
